(** * SAP learning hub: progress store, completion aggregation and
      the retrying request wrapper.

    Shallow embedding of
      - [src/app/page.tsx]                           (chapter-granularity catalog),
      - [src/components/SAPTrainingComponents.tsx]   (module-granularity catalog).

    JavaScript arrays are lists (order and duplicates are kept, an array
    read back from storage may hold anything), [localStorage] is a finite
    map from keys to strings, numbers that only count are [nat], and the
    results of [/] are exact rationals next to the two non-finite values a
    division by zero gives. *)

From stdpp Require Import base option list strings gmap.
From Stdlib Require Import QArith Lia Lqa.

Open Scope string_scope.
Open Scope list_scope.
Open Scope nat_scope.

(** ** Progress store *)

Module Progress.

(** [interface ProgressEntry { courseId: string; completedModules: string[] }] *)
Record ProgressEntry := mkEntry {
  courseId : string;
  completedModules : list string
}.

#[global] Instance ProgressEntry_eq_dec : EqDecision ProgressEntry.
Proof. solve_decision. Defined.

(** [progress.find(p => p.courseId === id)] and
    [newProgress.findIndex(p => p.courseId === courseId)]: the first entry
    of the course, with its index; [None] stands for [undefined] / [-1]. *)
Definition findEntry (cId : string) (progress : list ProgressEntry)
  : option (nat * ProgressEntry) :=
  list_find (λ p, courseId p = cId) progress.

Definition find (cId : string) (progress : list ProgressEntry)
  : option ProgressEntry :=
  snd <$> findEntry cId progress.

Definition findIndex (cId : string) (progress : list ProgressEntry)
  : option nat :=
  fst <$> findEntry cId progress.

(** The body of the [setProgress] updater inside [updateProgress]; the
    same text in both files (the leaf is a module ID in one, a chapter ID
    in the other). *)
Definition updateProgress (cId moduleId : string) (isCompleted : bool)
    (prevProgress : list ProgressEntry) : list ProgressEntry :=
  let newProgress := prevProgress in
  match findEntry cId newProgress with
  | None =>
      (* Course not tracked yet, create new entry *)
      let newEntry :=
        {| courseId := cId;
           completedModules := if isCompleted then [moduleId] else [] |} in
      newProgress ++ [newEntry]
  | Some (courseIndex, currentEntry) =>
      let newCompletedModules := completedModules currentEntry in
      let newCompletedModules :=
        if isCompleted && negb (bool_decide (moduleId ∈ newCompletedModules))
        then newCompletedModules ++ [moduleId]
        else if negb isCompleted
        then filter (λ id, id ≠ moduleId) newCompletedModules
        else newCompletedModules in
      <[courseIndex :=
          {| courseId := courseId currentEntry;
             completedModules := newCompletedModules |}]> newProgress
  end.

(** What [updateProgress] does to the list of one entry. *)
Definition toggleIn (moduleId : string) (isCompleted : bool)
    (stored : list string) : list string :=
  if isCompleted && negb (bool_decide (moduleId ∈ stored))
  then stored ++ [moduleId]
  else if negb isCompleted
  then filter (λ id, id ≠ moduleId) stored
  else stored.

(** [const completedCount = progress?.completedModules.length || 0] *)
Definition completedCount (progress : option ProgressEntry) : nat :=
  match progress with
  | Some p => length (completedModules p)
  | None => 0
  end.

(** The IDs stored for a course ([[]] when the course has no entry). *)
Definition storedIds (cId : string) (progress : list ProgressEntry)
  : list string :=
  match find cId progress with
  | Some p => completedModules p
  | None => []
  end.

(** A run of toggles, applied left to right. *)
Definition toggle : Type := string * string * bool.

Definition applyToggle (progress : list ProgressEntry) (t : toggle)
  : list ProgressEntry :=
  let '(cId, moduleId, isCompleted) := t in
  updateProgress cId moduleId isCompleted progress.

Definition applyToggles (ts : list toggle) (progress : list ProgressEntry)
  : list ProgressEntry :=
  foldl applyToggle progress ts.

(** A course has an entry. *)
Definition hasEntry (cId : string) (progress : list ProgressEntry) : Prop :=
  is_Some (find cId progress).

End Progress.

(** ** Numbers

    [completedCount / total * 100] is a JavaScript number.  Counts are
    naturals; the quotient of two counts is an exact rational, or one of
    the two values a zero divisor gives. *)

Definition QofNat (n : nat) : Q := inject_Z (Z.of_nat n).

Inductive jsnum :=
| Finite (q : Q)
| PosInfinity
| NaN.

(** [a / b] for two counts. *)
Definition js_div (a b : nat) : jsnum :=
  match b, a with
  | O, O => NaN
  | O, S _ => PosInfinity
  | S _, _ => Finite (QofNat a / QofNat b)
  end.

(** [x * 100]. *)
Definition js_times100 (x : jsnum) : jsnum :=
  match x with
  | Finite q => Finite (q * 100)
  | PosInfinity => PosInfinity
  | NaN => NaN
  end.

(** ** Chapter-granularity catalog and its cards ([src/app/page.tsx]) *)

Module ChapterVariant.

Inductive Domain := Logistics | Finance | Technical | CrossFunctional.

(** [interface Chapter { id; title; content }] *)
Record Chapter := mkChapter {
  chapter_id : string;
  chapter_title : string;
  chapter_content : string
}.

(** [interface Module { name; id; chapters }] *)
Record CourseModule := mkModule {
  module_id : string;
  module_name : string;
  chapters : list Chapter
}.

(** [interface SAPCourse { id; title; domain; totalModules; modules; description }] *)
Record SAPCourse := mkCourse {
  id : string;
  title : string;
  domain : Domain;
  totalModules : nat;
  modules : list CourseModule;
  description : string
}.

(** [course.modules.reduce((total, module) => total + module.chapters.length, 0)] *)
Definition getTotalChapters (course : SAPCourse) : nat :=
  foldl (λ total module, total + length (chapters module)) 0 (modules course).

(** [module.chapters.map(c => c.id)], over all the modules of the course:
    the leaf IDs of the catalog. *)
Definition moduleChapterIds (module : CourseModule) : list string :=
  chapter_id <$> chapters module.

Definition leafIds (course : SAPCourse) : list string :=
  modules course ≫= moduleChapterIds.

(** [CourseCard] and [CourseDetail] compute the same three values from
    their [course] and [progress] props. *)
Definition completionRatio (course : SAPCourse)
    (progress : option Progress.ProgressEntry) : Q :=
  let totalChapters := getTotalChapters course in
  let completedCount := Progress.completedCount progress in
  if 0 <? totalChapters
  then (QofNat completedCount / QofNat totalChapters) * 100
  else 0.

Definition isCompleted (course : SAPCourse)
    (progress : option Progress.ProgressEntry) : bool :=
  let totalChapters := getTotalChapters course in
  let completedCount := Progress.completedCount progress in
  (completedCount =? totalChapters) && (0 <? totalChapters).

(** The [progress] prop the application passes to a card:
    [progress.find(p => p.courseId === course.id)]. *)
Definition cardProgress (course : SAPCourse)
    (collection : list Progress.ProgressEntry)
  : option Progress.ProgressEntry :=
  Progress.find (id course) collection.

Definition completedLeaves (course : SAPCourse)
    (collection : list Progress.ProgressEntry) : nat :=
  Progress.completedCount (cardProgress course collection).

(** The first course of [SAP_COURSES] in [src/app/page.tsx]. *)
Definition SAP_MM : SAPCourse :=
  {| id := "mm";
     title := "SAP MM (Materials Management)";
     domain := Logistics;
     totalModules := 5;
     description := "Comprehensive guide to procurement processes, inventory management, and invoice verification in SAP.";
     modules :=
       [ {| module_id := "mm-1";
            module_name := "Master Data Setup (Vendor & Material)";
            chapters :=
              [ mkChapter "mm-c1.1" "Material Master Views & Creation"
                  "The Material Master is central to logistics. It defines how a material is managed. Key views are Basic Data, Purchasing, Accounting, and Warehouse Management. T-code: MM01.";
                mkChapter "mm-c1.2" "Vendor Master (Business Partner)"
                  "The Vendor Master is now part of the Business Partner (BP) concept in S/4HANA. It holds all supplier-related data, like address, payment terms, and purchasing data. T-code: BP." ] |};
         {| module_id := "mm-2";
            module_name := "Purchase Requisition & Order Processing";
            chapters :=
              [ mkChapter "mm-c2.1" "Creating a Purchase Requisition (PR)"
                  "A Purchase Requisition is an internal document requesting a material or service. It's the first formal step in procurement. T-code: ME51N.";
                mkChapter "mm-c2.2" "Source Determination & Purchase Order (PO)"
                  "The Purchase Order is a formal, external document sent to a vendor, committing the company to the purchase. T-code: ME21N.";
                mkChapter "mm-c2.3" "Contract & Scheduling Agreement"
                  "These are long-term procurement agreements with vendors, simplifying future PO creation." ] |};
         {| module_id := "mm-3";
            module_name := "Goods Receipt and Movement Types";
            chapters :=
              [ mkChapter "mm-c3.1" "Performing a Goods Receipt (GR)"
                  "The Goods Receipt documents the physical movement of goods into inventory, referencing a Purchase Order. This creates a material document. T-code: MIGO.";
                mkChapter "mm-c3.2" "Understanding Movement Types"
                  "Movement types (e.g., 101 for GR, 201 for consumption) control how goods movement is recorded in the system and the corresponding General Ledger postings." ] |};
         {| module_id := "mm-4";
            module_name := "Invoice Verification (LIV)";
            chapters :=
              [ mkChapter "mm-c4.1" "Entering a Vendor Invoice"
                  "Invoice Verification is the final step in the P2P cycle, matching the invoice against the PO and GR to ensure accuracy. This posts the financial liability. T-code: MIRO.";
                mkChapter "mm-c4.2" "Three-Way Match Concept"
                  "The three-way match verifies the data between the Purchase Order, the Goods Receipt, and the Invoice before payment is approved." ] |};
         {| module_id := "mm-5";
            module_name := "Inventory Management and Physical Inventory";
            chapters :=
              [ mkChapter "mm-c5.1" "Stock Types and Valuation"
                  "Stock can be unrestricted, quality inspection, or blocked. Valuation defines the cost of the material.";
                mkChapter "mm-c5.2" "Physical Inventory Process"
                  "This process ensures that the physical stock matches the system stock. Key steps include document creation, counting, and posting differences. T-code: MI01, MI04, MI07." ] |} ] |}.

End ChapterVariant.

(** ** Module-granularity catalog and its cards
       ([src/components/SAPTrainingComponents.tsx]) *)

Module ModuleVariant.

Inductive Domain := Logistics | Finance | Technical.

(** [interface Module { title; id }] *)
Record CourseModule := mkModule {
  module_id : string;
  module_title : string
}.

Record SAPCourse := mkCourse {
  id : string;
  title : string;
  domain : Domain;
  totalModules : nat;
  modules : list CourseModule;
  description : string
}.

Definition SAP_MM : SAPCourse :=
  {| id := "mm";
     title := "SAP MM (Materials Management)";
     domain := Logistics;
     totalModules := 5;
     description := "Comprehensive guide to procurement processes, inventory management, and invoice verification in SAP.";
     modules :=
       [ mkModule "mm-1" "Master Data Setup (Vendor & Material)";
         mkModule "mm-2" "Purchase Requisition & Order Processing";
         mkModule "mm-3" "Goods Receipt and Movement Types";
         mkModule "mm-4" "Invoice Verification (LIV)";
         mkModule "mm-5" "Inventory Management and Physical Inventory" ] |}.

Definition SAP_FICO : SAPCourse :=
  {| id := "fico";
     title := "SAP FI/CO (Financial Accounting/Controlling)";
     domain := Finance;
     totalModules := 6;
     description := "Learn General Ledger, Accounts Payable/Receivable, Cost Center Accounting, and Internal Orders.";
     modules :=
       [ mkModule "fi-1" "General Ledger Configuration";
         mkModule "fi-2" "Accounts Payable (AP) Process";
         mkModule "fi-3" "Accounts Receivable (AR) Process";
         mkModule "co-4" "Cost Center Accounting (CCA)";
         mkModule "co-5" "Profit Center Accounting (PCA)";
         mkModule "co-6" "Internal Orders and Settlements" ] |}.

Definition SAP_SD : SAPCourse :=
  {| id := "sd";
     title := "SAP SD (Sales and Distribution)";
     domain := Logistics;
     totalModules := 4;
     description := "Master the Order-to-Cash process including sales order creation, shipping, and billing.";
     modules :=
       [ mkModule "sd-1" "Sales Order Creation and Types";
         mkModule "sd-2" "Pricing and Condition Techniques";
         mkModule "sd-3" "Delivery Processing and Picking";
         mkModule "sd-4" "Billing and Invoicing" ] |}.

Definition SAP_COURSES : list SAPCourse := [SAP_MM; SAP_FICO; SAP_SD].

(** The leaf IDs of the catalog: [course.modules.map(module => module.id)]. *)
Definition leafIds (course : SAPCourse) : list string :=
  module_id <$> modules course.

(** The module count, which this file never computes. *)
Definition moduleCount (course : SAPCourse) : nat :=
  length (modules course).

(** [CourseCard] and [CourseDetail]:
    [(completedCount / course.totalModules) * 100] and
    [completedCount === course.totalModules]. *)
Definition completionRatio (course : SAPCourse)
    (progress : option Progress.ProgressEntry) : jsnum :=
  let completedCount := Progress.completedCount progress in
  js_times100 (js_div completedCount (totalModules course)).

Definition isCompleted (course : SAPCourse)
    (progress : option Progress.ProgressEntry) : bool :=
  let completedCount := Progress.completedCount progress in
  completedCount =? totalModules course.

Definition cardProgress (course : SAPCourse)
    (collection : list Progress.ProgressEntry)
  : option Progress.ProgressEntry :=
  Progress.find (id course) collection.

Definition completedLeaves (course : SAPCourse)
    (collection : list Progress.ProgressEntry) : nat :=
  Progress.completedCount (cardProgress course collection).

End ModuleVariant.

(** ** Exceptions

    A computation either returns or throws. *)

Inductive result (E A : Type) :=
| Return (a : A)
| Throw (e : E).
Arguments Return {E A} _.
Arguments Throw {E A} _.

(** [try { body } catch (error) { handler(error) }] *)
Definition tryCatch {E A} (body : result E A) (handler : E -> result E A)
  : result E A :=
  match body with
  | Return a => Return a
  | Throw error => handler error
  end.

(** ** The [useUserProgress] mount effect: identity and stored progress *)

Module Loader.

Definition USER_ID_KEY : string := "sap_user_id".
Definition PROGRESS_KEY : string := "sap_progress".

(** The three [useState] cells of the hook. *)
Record HookState := mkHook {
  progress : list Progress.ProgressEntry;
  loading : bool;
  userId : string
}.

Definition initialState : HookState :=
  {| progress := []; loading := true; userId := "Initializing..." |}.

(** What the effect touches outside the hook: [localStorage] and the
    console. *)
Record Browser := mkBrowser {
  localStorage : gmap string string;
  console : list string
}.

(** A string read from storage is falsy when it is [null] or empty. *)
Definition truthy (s : option string) : bool :=
  match s with
  | Some s => negb (bool_decide (s = ""))
  | None => false
  end.

Section Hook.

(** [JSON.parse] at the type the hook gives its result; it throws on text
    that is not JSON. *)
Variable SyntaxError : Type.
Variable JSON_parse : string -> result SyntaxError (list Progress.ProgressEntry).

(** The body of the first [useEffect]. [uuid] is what
    [crypto.randomUUID()] would give. *)
Definition loadEffect (uuid : string) (st : HookState) (b : Browser)
  : result SyntaxError (HookState * Browser) :=
  let storedUserId := localStorage b !! USER_ID_KEY in
  let '(storedUserId, b) :=
    if negb (truthy storedUserId)
    then (uuid,
          {| localStorage := <[USER_ID_KEY := uuid]> (localStorage b);
             console := console b |})
    else (default "" storedUserId, b) in
  let st := {| progress := progress st; loading := loading st;
               userId := storedUserId |} in
  let storedProgress := localStorage b !! PROGRESS_KEY in
  let afterParse : result SyntaxError (HookState * Browser) :=
    match storedProgress with
    | Some text =>
        if truthy storedProgress then
          tryCatch
            (match JSON_parse text with
             | Return parsed =>
                 Return ({| progress := parsed; loading := loading st;
                            userId := userId st |}, b)
             | Throw error => Throw error
             end)
            (λ error,
               Return ({| progress := []; loading := loading st;
                          userId := userId st |},
                       {| localStorage := localStorage b;
                          console := console b ++
                            ["Error parsing progress from localStorage:"] |}))
        else Return (st, b)
    | None => Return (st, b)
    end in
  match afterParse with
  | Return (st, b) =>
      Return ({| progress := progress st; loading := false;
                 userId := userId st |}, b)
  | Throw error => Throw error
  end.

End Hook.

(** A parser for running the effect on examples: it knows the text of the
    empty array and rejects everything else. *)
Definition parseEmptyArray (text : string)
  : result unit (list Progress.ProgressEntry) :=
  if decide (text = "[]") then Return [] else Throw tt.

End Loader.

(** ** The retrying request wrapper, [fetchWithExponentialBackoff]
       (the same text in both files) *)

Module Request.

Section Wrapper.

(** Parsed JSON bodies. *)
Variable Json : Type.

(** What the wrapper reads of a [Response]; [json = None] when
    [response.json()] rejects. [ok] is the Fetch standard's: a status
    from 200 to 299. *)
Record Response := mkResponse {
  status : nat;
  statusText : string;
  json : option Json
}.

Definition ok (response : Response) : bool :=
  (200 <=? status response) && (status response <=? 299).

(** Values that reach the [catch] clause or the caller. *)
Inductive Exn :=
| FetchRejected (reason : string)      (* [fetch] itself rejects *)
| BodyNotJson                          (* [response.json()] rejects *)
| TypeError                            (* [errorData.error] on a [null] body *)
| ApiRequestFailed (status : nat) (statusText message : string)
| MaximumRetriesReached.

Inductive FetchResult :=
| Rejected (error : Exn)
| Resolved (response : Response).

(** [errorData.error?.message || 'Unknown error'], or the [TypeError]
    reading [.error] of [null] raises. *)
Variable errorMessage : Json -> result Exn string.

(** The network and the random source: the answer to the n-th [fetch]
    and the n-th value of [Math.random()]. *)
Variable fetch : nat -> FetchResult.
Variable random : nat -> Q.

Inductive Event :=
| Fetched (call : nat)
| Slept (delay : Q).

(** How many calls were made so far, and what happened, oldest first. *)
Record World := mkWorld {
  fetches : nat;
  randoms : nat;
  trace : list Event
}.

Definition start : World := {| fetches := 0; randoms := 0; trace := [] |}.

Definition doFetch (w : World) : FetchResult * World :=
  (fetch (fetches w),
   {| fetches := S (fetches w); randoms := randoms w;
      trace := trace w ++ [Fetched (fetches w)] |}).

(** [Math.pow(2, i) * 1000 + Math.random() * 1000], given the random value. *)
Definition delayOf (i : nat) (r : Q) : Q :=
  (QofNat (2 ^ i) * 1000 + r * 1000)%Q.

(** The two statements
    [const delay = ...; await new Promise(resolve => setTimeout(resolve, delay))]. *)
Definition backoff (i : nat) (w : World) : World :=
  let delay := delayOf i (random (randoms w)) in
  {| fetches := fetches w; randoms := S (randoms w);
     trace := trace w ++ [Slept delay] |}.

(** The [throw new Error(`API request failed: ...`)] statement: building
    the message may itself throw. *)
Definition apiError (response : Response) (errorData : Json) : Exn :=
  match errorMessage errorData with
  | Return message =>
      ApiRequestFailed (status response) (statusText response) message
  | Throw error => error
  end.

(** The [for] loop from iteration [i] on; [remaining] is
    [maxRetries - i], so the loop test [i < maxRetries] is
    [remaining <> 0]. *)
Fixpoint attempts (maxRetries remaining i : nat) (w : World)
  : result Exn Json * World :=
  match remaining with
  | O => (Throw MaximumRetriesReached, w)
  | S remaining' =>
      (* the catch clause *)
      let catch (error : Exn) (w : World) :=
        if i =? maxRetries - 1
        then (Throw error, w)
        else attempts maxRetries remaining' (S i) (backoff i w) in
      let '(fetched, w) := doFetch w in
      match fetched with
      | Rejected error => catch error w
      | Resolved response =>
          if negb (ok response) then
            match json response with
            | None => catch BodyNotJson w
            | Some errorData =>
                if (status response =? 429) && (i <? maxRetries - 1)
                then attempts maxRetries remaining' (S i) (backoff i w)
                else catch (apiError response errorData) w
            end
          else
            match json response with
            | Some data => (Return data, w)
            | None => catch BodyNotJson w
            end
      end
  end.

Definition fetchWithExponentialBackoff (maxRetries : nat)
  : result Exn Json * World :=
  attempts maxRetries maxRetries 0 start.

(** The delays of a run, in order. *)
Definition delays (t : list Event) : list Q :=
  t ≫= (λ e, match e with Slept d => [d] | Fetched _ => [] end).

(** The [fetch] calls of a run, in order. *)
Definition fetchCalls (t : list Event) : list nat :=
  t ≫= (λ e, match e with Fetched n => [n] | Slept _ => [] end).

End Wrapper.

(** Two networks to run the wrapper on: one answers 429 three times and
    then 200, the other answers 400 once and then 200. *)
Definition busyThenFine (call : nat) : FetchResult string :=
  if call <? 3
  then Resolved string
         {| status := 429; statusText := "Too Many Requests";
            json := Some "slow down" |}
  else Resolved string
         {| status := 200; statusText := "OK";
            json := Some "answer" |}.

Definition badThenFine (call : nat) : FetchResult string :=
  match call with
  | 0 => Resolved string
           {| status := 400; statusText := "Bad Request";
              json := Some "bad request" |}
  | _ => Resolved string
           {| status := 200; statusText := "OK";
              json := Some "answer" |}
  end.

Definition messageOf (errorData : string) : result Exn string :=
  Return errorData.

Definition halves (call : nat) : Q := (1 # 2)%Q.

End Request.

(** ** The course detail view and the dashboard count *)

Module Detail.

(** [progress?.completedModules.includes(id) || false]: [isChapterCompleted]
    in [src/app/page.tsx], [isModuleCompleted] in the two module-catalog
    files. *)
Definition isChapterCompleted (progress : option Progress.ProgressEntry)
    (chapterId : string) : bool :=
  match progress with
  | Some p => bool_decide (chapterId ∈ Progress.completedModules p)
  | None => false
  end.

(** [handleToggleCompletion]: [updateProgress(course.id, id, isCompleted)]. *)
Definition handleToggleCompletion (courseId leafId : string)
    (isCompleted : bool) (collection : list Progress.ProgressEntry)
  : list Progress.ProgressEntry :=
  Progress.updateProgress courseId leafId isCompleted collection.

(** The button of a leaf:
    [onClick={() => handleToggleCompletion(id, !isCompleted)}], where
    [isCompleted] is what the view shows for the leaf. *)
Definition clickLeaf (courseId leafId : string)
    (collection : list Progress.ProgressEntry)
  : list Progress.ProgressEntry :=
  let progress := Progress.find courseId collection in
  let isCompleted := isChapterCompleted progress leafId in
  handleToggleCompletion courseId leafId (negb isCompleted) collection.

(** Per module, in the module list of [src/app/page.tsx]:
    [module.chapters.filter(c => isChapterCompleted(c.id)).length] and
    [moduleCompletedChapters === moduleTotalChapters]. *)
Definition moduleCompletedChapters (module : ChapterVariant.CourseModule)
    (progress : option Progress.ProgressEntry) : nat :=
  length (List.filter
            (λ c, isChapterCompleted progress (ChapterVariant.chapter_id c))
            (ChapterVariant.chapters module)).

Definition isModuleCompleted (module : ChapterVariant.CourseModule)
    (progress : option Progress.ProgressEntry) : bool :=
  moduleCompletedChapters module progress
  =? length (ChapterVariant.chapters module).

(** [completedModulesCount]: the modules all of whose chapter IDs pass
    [every(chapterId => isChapterCompleted(chapterId))]. *)
Definition completedModulesCount (course : ChapterVariant.SAPCourse)
    (progress : option Progress.ProgressEntry) : nat :=
  length (List.filter
            (λ module,
               let moduleChapterIds := ChapterVariant.moduleChapterIds module in
               forallb (isChapterCompleted progress) moduleChapterIds)
            (ChapterVariant.modules course)).

End Detail.

Module Dashboard.

(** [SAP_COURSES.find(c => c.id === p.courseId)] *)
Definition findCourse (catalog : list ChapterVariant.SAPCourse)
    (courseId : string) : option ChapterVariant.SAPCourse :=
  snd <$> list_find (λ c, ChapterVariant.id c = courseId) catalog.

(** The filter of [App] in [src/app/page.tsx]. *)
Definition countsAsCompleted (catalog : list ChapterVariant.SAPCourse)
    (p : Progress.ProgressEntry) : bool :=
  match findCourse catalog (Progress.courseId p) with
  | None => false
  | Some course =>
      let totalChapters := ChapterVariant.getTotalChapters course in
      (0 <? totalChapters)
      && (length (Progress.completedModules p) =? totalChapters)
  end.

Definition completedCourses (catalog : list ChapterVariant.SAPCourse)
    (progress : list Progress.ProgressEntry) : nat :=
  length (List.filter (countsAsCompleted catalog) progress).

(** [totalCourses > 0 ? (completedCourses / totalCourses) * 100 : 0] *)
Definition completionRatio (catalog : list ChapterVariant.SAPCourse)
    (progress : list Progress.ProgressEntry) : Q :=
  let totalCourses := length catalog in
  if 0 <? totalCourses
  then (QofNat (completedCourses catalog progress) / QofNat totalCourses) * 100
  else 0.

End Dashboard.

(** ** Reading a run of the request wrapper *)

Module Attempt.

Section Outcome.

Variable Json : Type.
Variable errorMessage : Json -> result Request.Exn string.
Variable random : nat -> Q.

(** What one answer is to the loop body: the body it returns, or the
    value that reaches its [catch] clause (or, for a 429 before the last
    attempt, the [continue]). *)
Definition successOf (fetched : Request.FetchResult Json) : option Json :=
  match fetched with
  | Request.Rejected _ _ => None
  | Request.Resolved _ response =>
      if Request.ok Json response then Request.json Json response else None
  end.

Definition failureOf (fetched : Request.FetchResult Json) : Request.Exn :=
  match fetched with
  | Request.Rejected _ error => error
  | Request.Resolved _ response =>
      match Request.json Json response with
      | None => Request.BodyNotJson
      | Some errorData => Request.apiError Json errorMessage response errorData
      end
  end.

(** The events of [k] attempts in a row, the first numbered [i]: a fetch
    each, and a backoff delay between two of them. *)
Definition retried (i k : nat) : list Request.Event :=
  seq i k ≫= (λ j, [ Request.Fetched j;
                     Request.Slept (Request.delayOf j (random j)) ]).

Definition expectedTrace (k : nat) : list Request.Event :=
  match k with
  | O => []
  | S k' => retried 0 k' ++ [Request.Fetched k']
  end.

(** The sum of the delays of a run, in milliseconds. *)
Definition totalDelay (t : list Request.Event) : Q :=
  foldr Qplus 0%Q (Request.delays t).

End Outcome.

(** A network that is down: every [fetch] rejects. *)
Definition alwaysDown (call : nat) : Request.FetchResult string :=
  Request.Rejected string (Request.FetchRejected "Failed to fetch").

End Attempt.

(** ** Writing the progress back: the second [useEffect] of
       [useUserProgress] *)

Module Persist.

Section Hook.

(** [JSON.stringify] at the type of the collection. *)
Variable JSON_stringify : list Progress.ProgressEntry -> string.

(** [if (!loading) localStorage.setItem(PROGRESS_KEY, JSON.stringify(progress))] *)
Definition persistEffect (st : Loader.HookState) (b : Loader.Browser)
  : Loader.Browser :=
  if negb (Loader.loading st)
  then {| Loader.localStorage :=
            <[Loader.PROGRESS_KEY := JSON_stringify (Loader.progress st)]>
              (Loader.localStorage b);
          Loader.console := Loader.console b |}
  else b.

End Hook.

End Persist.

(** ** PCM to WAV ([src/app/page.tsx])

    An [ArrayBuffer] is the list of its bytes, each from 0 to 255, and a
    [DataView] on it writes little-endian fields; a write that does not
    fit throws a [RangeError]. *)

Module Wav.

Inductive RangeError := OutOfBounds.

(** The [n] low bytes of a number, least significant first; for a
    negative number these are the bytes of its two's complement. *)
Fixpoint leBytes (n : nat) (value : Z) : list Z :=
  match n with
  | O => []
  | S n' => (value mod 256)%Z :: leBytes n' (value / 256)%Z
  end.

(** Replacing the bytes from [offset] on. *)
Definition store (view : list Z) (offset : nat) (bytes : list Z)
  : result RangeError (list Z) :=
  if decide (offset + length bytes <= length view)
  then Return (take offset view ++ bytes
               ++ drop (offset + length bytes) view)
  else Throw OutOfBounds.

Definition fieldBytes (n : nat) (value : Z) (littleEndian : bool) : list Z :=
  if littleEndian then leBytes n value else rev (leBytes n value).

Definition setUint8 (view : list Z) (offset : nat) (value : Z) :=
  store view offset (leBytes 1 value).

Definition setUint16 (view : list Z) (offset : nat) (value : Z)
    (littleEndian : bool) :=
  store view offset (fieldBytes 2 value littleEndian).

Definition setInt16 (view : list Z) (offset : nat) (value : Z)
    (littleEndian : bool) :=
  store view offset (fieldBytes 2 value littleEndian).

Definition setUint32 (view : list Z) (offset : nat) (value : Z)
    (littleEndian : bool) :=
  store view offset (fieldBytes 4 value littleEndian).

Definition andThen {E A B} (x : result E A) (k : A -> result E B)
  : result E B :=
  match x with
  | Return a => k a
  | Throw e => Throw e
  end.

Notation "'do' x <- e ; k" := (andThen e (λ x, k))
  (at level 10, x name, e at level 100, k at level 200).

(** [str.charCodeAt(i)] *)
Definition charCode (c : Ascii.ascii) : Z := Z.of_nat (Ascii.nat_of_ascii c).

(** [writeString]: [for (i = 0; i < str.length; i++)
    view.setUint8(offset + i, str.charCodeAt(i))]. *)
Fixpoint writeChars (view : list Z) (offset i : nat) (chars : list Ascii.ascii)
  : result RangeError (list Z) :=
  match chars with
  | [] => Return view
  | c :: rest =>
      do view <- setUint8 view (offset + i) (charCode c) ;
      writeChars view offset (S i) rest
  end.

Definition writeString (view : list Z) (offset : nat) (str : string)
  : result RangeError (list Z) :=
  writeChars view offset 0 (String.list_ascii_of_string str).

(** The sample loop:
    [for (i = 0; i < pcm16.length; i++, offset += 2)
       view.setInt16(offset, pcm16[i], true)]. *)
Fixpoint writeSamples (view : list Z) (offset : nat) (samples : list Z)
  : result RangeError (list Z) :=
  match samples with
  | [] => Return view
  | sample :: rest =>
      do view <- setInt16 view offset sample true ;
      writeSamples view (offset + 2) rest
  end.

(** [pcmToWav(pcm16, sampleRate)]; the result is the content of the blob. *)
Definition pcmToWav (pcm16 : list Z) (sampleRate : Z)
  : result RangeError (list Z) :=
  let numChannels := 1%Z in
  let sampleSize := 2 in
  let view := replicate (44 + length pcm16 * sampleSize) 0%Z in
  do view <- writeString view 0 "RIFF" ;
  do view <- setUint32 view 4 (Z.of_nat (36 + length pcm16 * sampleSize)) true ;
  do view <- writeString view 8 "WAVE" ;
  do view <- writeString view 12 "fmt " ;
  do view <- setUint32 view 16 16 true ;
  do view <- setUint16 view 20 1 true ;
  do view <- setUint16 view 22 numChannels true ;
  do view <- setUint32 view 24 sampleRate true ;
  do view <- setUint32 view 28
            (sampleRate * numChannels * Z.of_nat sampleSize) true ;
  do view <- setUint16 view 32 (numChannels * Z.of_nat sampleSize) true ;
  do view <- setUint16 view 34 16 true ;
  do view <- writeString view 36 "data" ;
  do view <- setUint32 view 40 (Z.of_nat (length pcm16 * sampleSize)) true ;
  writeSamples view 44 pcm16.

(** [new Int16Array(buffer)]: the 16-bit elements of a buffer, two bytes
    each, low byte first (typed arrays use the byte order of the
    platform, taken to be little-endian); a buffer of odd length is
    refused with a [RangeError]. *)
Definition toInt16 (lo hi : Z) : Z :=
  let unsigned := (lo + 256 * hi)%Z in
  if (unsigned <? 32768)%Z then unsigned else (unsigned - 65536)%Z.

Fixpoint int16Elements (bytes : list Z) : list Z :=
  match bytes with
  | lo :: hi :: rest => toInt16 lo hi :: int16Elements rest
  | _ => []
  end.

Definition Int16Array (bytes : list Z) : result RangeError (list Z) :=
  if Nat.even (length bytes)
  then Return (int16Elements bytes)
  else Throw OutOfBounds.

(** The audio branch of [handleSpeak], from the decoded bytes to the blob:
    [pcmToWav(new Int16Array(pcmData), sampleRate)]. *)
Definition wavOfPcmBytes (pcmData : list Z) (sampleRate : Z)
  : result RangeError (list Z) :=
  do pcm16 <- Int16Array pcmData ;
  pcmToWav pcm16 sampleRate.

(** Reading a little-endian field back, as a player of the file does. *)
Fixpoint leValue (bytes : list Z) : Z :=
  match bytes with
  | [] => 0
  | b :: rest => (b + 256 * leValue rest)%Z
  end.

Definition readLE (view : list Z) (offset n : nat) : Z :=
  leValue (take n (drop offset view)).

(** The 44 bytes of the header for [n] samples. *)
Definition wavHeader (n : nat) (sampleRate : Z) : list Z :=
  (charCode <$> String.list_ascii_of_string "RIFF")
  ++ leBytes 4 (Z.of_nat (36 + n * 2))
  ++ (charCode <$> String.list_ascii_of_string "WAVE")
  ++ (charCode <$> String.list_ascii_of_string "fmt ")
  ++ leBytes 4 16 ++ leBytes 2 1 ++ leBytes 2 1
  ++ leBytes 4 sampleRate ++ leBytes 4 (sampleRate * 1 * 2)
  ++ leBytes 2 2 ++ leBytes 2 16
  ++ (charCode <$> String.list_ascii_of_string "data")
  ++ leBytes 4 (Z.of_nat (n * 2)).

End Wav.

(** ** The server route ([src/app/api/gemini/route.ts], [POST]) *)

Module Route.

Definition MODEL_TTS : string := "gemini-2.5-flash-preview-tts".
Definition MODEL_TEXT : string := "gemini-2.5-flash-preview-09-2025".

(** [interface RequestBody { query; systemPrompt; isTTS }] *)
Record RequestBody := mkBody {
  query : string;
  systemPrompt : string;
  isTTS : bool
}.

(** The payload sent upstream: [contents[0].parts[0].text], [model], and
    the optional [generationConfig] (the voice name of the audio
    configuration), [systemInstruction] and [tools]. *)
Record Payload := mkPayload {
  contents : string;
  model : string;
  generationConfig : option string;
  systemInstruction : option string;
  tools : list string
}.

Definition buildPayload (body : RequestBody) : Payload :=
  let model := if isTTS body then MODEL_TTS else MODEL_TEXT in
  let payload :=
    {| contents := query body; model := model; generationConfig := None;
       systemInstruction := None; tools := [] |} in
  if isTTS body
  then {| contents := contents payload; model := model;
          generationConfig := Some "Charon";
          systemInstruction := systemInstruction payload;
          tools := tools payload |}
  else {| contents := contents payload; model := model;
          generationConfig := generationConfig payload;
          systemInstruction := Some (systemPrompt body);
          tools := ["google_search"] |}.

Definition apiUrl (model key : string) : string :=
  "https://generativelanguage.googleapis.com/v1beta/models/" +:+ model
  +:+ ":generateContent?key=" +:+ key.

Section Handler.

Variable Json : Type.

(** [errorData.error?.message || 'Unknown error'], or the [TypeError] of
    a [null] body. *)
Variable errorMessage : Json -> result Request.Exn string.

(** [process.env.GOOGLE_GEMINI_API_KEY]. *)
Variable API_KEY : option string.

(** The upstream service: the answer to a [fetch] of a URL with a
    payload. *)
Variable fetch : string -> Payload -> Request.FetchResult Json.

(** The body of a [NextResponse.json(...)]. *)
Inductive Reply :=
| ErrorReply (error : string) (upstreamStatus : option nat)
| DataReply (data : Json).

Record NextResponse := mkReply {
  status : nat;
  reply : Reply
}.

(** What a run of the handler leaves behind: its response, the upstream
    calls it made and the lines it wrote to the console. *)
Record Run := mkRun {
  response : NextResponse;
  calls : list (string * Payload);
  console : list string
}.

Definition internalError (calls : list (string * Payload))
    (console : list string) : Run :=
  {| response :=
       {| status := 500;
          reply := ErrorReply
                     "Internal server error while communicating with Gemini."
                     None |};
     calls := calls;
     console := console ++ ["Server Fetch Error:"] |}.

(** [req.json()] is given by its outcome, at the type [RequestBody]; a
    missing [query] is the empty one, which [!query] treats alike. *)
Definition POST (reqJson : result unit RequestBody) : Run :=
  if negb (Loader.truthy API_KEY) then
    {| response :=
         {| status := 500;
            reply := ErrorReply "Server-side API Key is not configured." None |};
       calls := []; console := [] |}
  else
    match reqJson with
    | Throw _ =>
        {| response :=
             {| status := 400; reply := ErrorReply "Invalid JSON body." None |};
           calls := []; console := [] |}
    | Return body =>
        if bool_decide (query body = "") then
          {| response :=
               {| status := 400;
                  reply := ErrorReply "Missing query parameter." None |};
             calls := []; console := [] |}
        else
          let model := if isTTS body then MODEL_TTS else MODEL_TEXT in
          let url := apiUrl model (default "" API_KEY) in
          let payload := buildPayload body in
          let calls := [(url, payload)] in
          match fetch url payload with
          | Request.Rejected _ _ => internalError calls []
          | Request.Resolved _ geminiResponse =>
              if negb (Request.ok Json geminiResponse) then
                match Request.json Json geminiResponse with
                | None => internalError calls []
                | Some errorData =>
                    let console := ["Gemini API Error:"] in
                    match errorMessage errorData with
                    | Throw _ => internalError calls console
                    | Return message =>
                        {| response :=
                             {| status := Request.status Json geminiResponse;
                                reply :=
                                  ErrorReply ("Gemini API failed: " +:+ message)
                                    (Some (Request.status Json geminiResponse)) |};
                           calls := calls; console := console |}
                    end
                end
              else
                match Request.json Json geminiResponse with
                | None => internalError calls []
                | Some data =>
                    {| response := {| status := 200; reply := DataReply data |};
                       calls := calls; console := [] |}
                end
          end
    end.

End Handler.

End Route.

(** ** The views of the e-book application
       ([src/components/SAPTrainingComponents.tsx]) *)

Module Views.

(** [type ViewState] *)
Inductive ViewState :=
| DASHBOARD
| COURSE_DETAIL (courseId : string)
| EBOOK (courseId moduleId : string).

Definition handleViewCourse (courseId : string) : ViewState :=
  COURSE_DETAIL courseId.

Definition handleViewModule (courseId moduleId : string) : ViewState :=
  EBOOK courseId moduleId.

Definition handleBack (view : ViewState) : ViewState :=
  match view with
  | EBOOK courseId _ => COURSE_DETAIL courseId
  | _ => DASHBOARD
  end.

(** [SAP_COURSES.find(c => c.id === view.courseId)] *)
Definition currentCourse (catalog : list ModuleVariant.SAPCourse)
    (view : ViewState) : option ModuleVariant.SAPCourse :=
  match view with
  | COURSE_DETAIL courseId | EBOOK courseId _ =>
      snd <$> list_find (λ c, ModuleVariant.id c = courseId) catalog
  | DASHBOARD => None
  end.

(** What [appBody] renders. *)
Inductive Screen :=
| DashboardScreen
| CourseNotFound
| CourseDetailScreen (course : ModuleVariant.SAPCourse)
| ModuleOrCourseNotFound
| EbookScreen (course : ModuleVariant.SAPCourse)
              (module : ModuleVariant.CourseModule).

Definition appBody (catalog : list ModuleVariant.SAPCourse)
    (view : ViewState) : Screen :=
  match view with
  | DASHBOARD => DashboardScreen
  | COURSE_DETAIL _ =>
      match currentCourse catalog view with
      | None => CourseNotFound
      | Some course => CourseDetailScreen course
      end
  | EBOOK _ moduleId =>
      match currentCourse catalog view with
      | None => ModuleOrCourseNotFound
      | Some course =>
          match snd <$> list_find (λ m, ModuleVariant.module_id m = moduleId)
                          (ModuleVariant.modules course) with
          | None => ModuleOrCourseNotFound
          | Some module => EbookScreen course module
          end
      end
  end.

End Views.

(** ** The text handed to the voice service ([handleSpeak]) *)

Module Speech.

Definition truncationNote : string := "... (response truncated for TTS)".

(** [if (textToSpeak.length > 500)
       textToSpeak = textToSpeak.substring(0, 500) + "... (...)"]. *)
Definition spokenText (textToSpeak : string) : string :=
  if 500 <? String.length textToSpeak
  then String.substring 0 500 textToSpeak +:+ truncationNote
  else textToSpeak.

End Speech.

(** ** Asking the tutor: [generateContent]
       ([src/components/SAPTrainingComponents.tsx]) and the answer read by
       [handleSubmit] ([src/app/page.tsx]) *)

Module Tutor.

(** The part of the answer the code reads:
    [{ candidates?: { content?: { parts?: { text: string }[] } }[] }]. *)
Record Part := mkPart { text : string }.
Record Content := mkContent { parts : option (list Part) }.
Record Candidate := mkCandidate { content : option Content }.
Record GeminiResult := mkResult { candidates : option (list Candidate) }.

(** [result.candidates?.[0]?.content?.parts] *)
Definition firstParts (result : GeminiResult) : option (list Part) :=
  match candidates result with
  | Some (candidate :: _) =>
      match content candidate with
      | Some c => parts c
      | None => None
      end
  | _ => None
  end.

Definition orElse (value : option string) (fallback : string) : string :=
  match value with
  | Some s => if bool_decide (s = "") then fallback else s
  | None => fallback
  end.

(** [generateContent]:
    [...parts?.find(part => part.text)?.text] and [textPart || "..."]. *)
Definition textPart (result : GeminiResult) : option string :=
  match firstParts result with
  | Some ps => text <$> List.find (λ part, negb (bool_decide (text part = ""))) ps
  | None => None
  end.

Definition answerOf (result : GeminiResult) : string :=
  orElse (textPart result)
    "I was unable to retrieve a response. (Content missing or response structured unexpectedly.)".

(** [handleSubmit]: [...parts?.[0]?.text || "I was unable to retrieve a response."] *)
Definition aiText (result : GeminiResult) : string :=
  orElse (match firstParts result with
          | Some (part :: _) => Some (text part)
          | _ => None
          end)
    "I was unable to retrieve a response.".

Inductive TutorError :=
| ApiKeyMissing          (* "API Key is missing. Please set ..." *)
| KnowledgeBaseTrouble.  (* "I'm having trouble connecting to the knowledge base right now." *)

Section Generate.

Variable errorMessage : GeminiResult -> result Request.Exn string.
Variable fetch : nat -> Request.FetchResult GeminiResult.
Variable random : nat -> Q.

(** [generateContent(userQuery, courseTitle)] with the key it finds; the
    wrapper is called with its default of 5 attempts.  The result comes
    with the events of the wrapper and the console lines. *)
Definition generateContent (apiKey : string)
  : result TutorError string * Request.World * list string :=
  if bool_decide (apiKey = "") then
    (Throw ApiKeyMissing, Request.start, [])
  else
    match Request.fetchWithExponentialBackoff GeminiResult errorMessage
            fetch random 5 with
    | (Return result, w) => (Return (answerOf result), w, [])
    | (Throw error, w) =>
        (Throw KnowledgeBaseTrouble, w, ["Text API call failed:"])
    end.

End Generate.

(** An answer with one text part, one whose first part has no text, and
    a service that gives the first to every request. *)
Definition plainAnswer : GeminiResult :=
  {| candidates :=
       Some [ {| content :=
                   Some {| parts := Some [ {| text := "SAP is an ERP suite." |} ] |} |} ] |}.

Definition laterTextAnswer : GeminiResult :=
  {| candidates :=
       Some [ {| content :=
                   Some {| parts := Some [ {| text := "" |};
                                           {| text := "SAP is an ERP suite." |} ] |} |} ] |}.

Definition answering (call : nat) : Request.FetchResult GeminiResult :=
  Request.Resolved GeminiResult
    {| Request.status := 200; Request.statusText := "OK";
       Request.json := Some plainAnswer |}.

Definition noMessage (errorData : GeminiResult) : result Request.Exn string :=
  Return "Unknown error".

End Tutor.

(** ** The sample rate named by a MIME type ([handleSpeak]) *)

Module Mime.


(** [\d] *)
Definition isDigit (c : Ascii.ascii) : bool :=
  (48 <=? Ascii.nat_of_ascii c) && (Ascii.nat_of_ascii c <=? 57).

(** [(\d+)]: the longest run of digits at the start. *)
Fixpoint digitsPrefix (s : list Ascii.ascii) : list Ascii.ascii :=
  match s with
  | c :: rest => if isDigit c then c :: digitsPrefix rest else []
  | [] => []
  end.

(** [s.startsWith(prefix)] *)
Definition startsWith (prefix : string) (s : list Ascii.ascii) : bool :=
  bool_decide (take (String.length prefix) s
               = String.list_ascii_of_string prefix).

(** [mimeType.match(/rate=(\d+)/)]: the capture of the leftmost place
    where [rate=] is followed by a digit. *)
Fixpoint rateMatch (s : list Ascii.ascii) : option (list Ascii.ascii) :=
  match s with
  | [] => None
  | c :: rest =>
      if startsWith "rate=" (c :: rest) then
        match digitsPrefix (drop 5 (c :: rest)) with
        | [] => rateMatch rest
        | digits => Some digits
        end
      else rateMatch rest
  end.

(** [parseInt(digits, 10)] on a run of digits, as an exact integer
    (a JavaScript number is exact up to 2^53). *)
Definition parseInt (digits : list Ascii.ascii) : Z :=
  foldl (λ acc c, (acc * 10 + (Z.of_nat (Ascii.nat_of_ascii c) - 48))%Z)
    0%Z digits.

(** [rateMatch ? parseInt(rateMatch[1], 10) : 16000] *)
Definition sampleRate (mimeType : list Ascii.ascii) : Z :=
  match rateMatch mimeType with
  | Some digits => parseInt digits
  | None => 16000
  end.

End Mime.

(** * Theorems *)

(** ** The progress store *)

Section ProgressStore.

Import Progress.

(** Equations of [updateProgress] on a collection given by its head. *)

Lemma updateProgress_nil cId m b :
  updateProgress cId m b [] =
  [ {| courseId := cId; completedModules := if b then [m] else [] |} ].
Proof. reflexivity. Qed.

Lemma updateProgress_hit cId m b e rest :
  courseId e = cId ->
  updateProgress cId m b (e :: rest) =
  {| courseId := courseId e;
     completedModules := toggleIn m b (completedModules e) |} :: rest.
Proof.
  intros He. unfold updateProgress, findEntry. simpl.
  rewrite decide_True by exact He. reflexivity.
Qed.

Lemma updateProgress_miss cId m b e rest :
  courseId e ≠ cId ->
  updateProgress cId m b (e :: rest) = e :: updateProgress cId m b rest.
Proof.
  intros He. unfold updateProgress, findEntry. simpl.
  rewrite decide_False by exact He.
  destruct (list_find (λ p, courseId p = cId) rest) as [[i x]|]; reflexivity.
Qed.

Lemma find_hit cId e rest :
  courseId e = cId -> find cId (e :: rest) = Some e.
Proof.
  intros He. unfold find, findEntry. simpl.
  rewrite decide_True by exact He. reflexivity.
Qed.

Lemma find_miss cId e rest :
  courseId e ≠ cId -> find cId (e :: rest) = find cId rest.
Proof.
  intros He. unfold find, findEntry. simpl.
  rewrite decide_False by exact He.
  destruct (list_find (λ p, courseId p = cId) rest) as [[i x]|]; reflexivity.
Qed.

Lemma find_None_absent cId progress :
  find cId progress = None <-> Forall (λ p, courseId p ≠ cId) progress.
Proof.
  induction progress as [|e rest IH].
  - split; [constructor | reflexivity].
  - destruct (decide (courseId e = cId)) as [He|He].
    + rewrite find_hit by exact He. split; [discriminate|].
      intros H. inversion H; subst. contradiction.
    + rewrite find_miss by exact He. rewrite IH. split.
      * intros H. constructor; assumption.
      * intros H. inversion H; assumption.
Qed.

(** Ltac for the recurring case split on the head entry. *)
Ltac head_case e cId :=
  destruct (decide (courseId e = cId)) as [?Hhit|?Hmiss];
  [ rewrite ?updateProgress_hit by assumption
  | rewrite ?updateProgress_miss by assumption ].

Lemma updateProgress_absent cId m b progress :
  find cId progress = None ->
  updateProgress cId m b progress =
  progress ++ [ {| courseId := cId;
                   completedModules := if b then [m] else [] |} ].
Proof.
  unfold find, updateProgress.
  destruct (findEntry cId progress) as [[i x]|]; [discriminate | reflexivity].
Qed.

Lemma toggleIn_idem m b stored :
  toggleIn m b (toggleIn m b stored) = toggleIn m b stored.
Proof.
  unfold toggleIn. destruct b; simpl.
  - destruct (bool_decide (m ∈ stored)) eqn:Hin; simpl.
    + rewrite Hin. reflexivity.
    + rewrite bool_decide_true; [reflexivity|].
      apply elem_of_app. right. apply list_elem_of_singleton. reflexivity.
  - induction stored as [|x l IH]; [reflexivity|].
    rewrite filter_cons. destruct (decide (x ≠ m)) as [Hx|Hx].
    + rewrite filter_cons, decide_True by exact Hx. f_equal. exact IH.
    + exact IH.
Qed.

Lemma find_updateProgress_same cId m b progress :
  find cId (updateProgress cId m b progress) =
  Some {| courseId := cId;
          completedModules := toggleIn m b (storedIds cId progress) |}.
Proof.
  unfold storedIds. induction progress as [|e rest IH].
  - rewrite updateProgress_nil. rewrite find_hit by reflexivity.
    unfold toggleIn. destruct b; reflexivity.
  - head_case e cId.
    + rewrite !find_hit by assumption. subst cId. reflexivity.
    + rewrite !find_miss by assumption. exact IH.
Qed.

Lemma find_updateProgress_other cId cId' m b progress :
  cId' ≠ cId ->
  find cId' (updateProgress cId m b progress) = find cId' progress.
Proof.
  intros Hne. induction progress as [|e rest IH].
  - rewrite updateProgress_nil. rewrite find_miss; [reflexivity|].
    simpl. congruence.
  - head_case e cId.
    + destruct (decide (courseId e = cId')) as [He'|He']; [congruence|].
      rewrite !find_miss by assumption. reflexivity.
    + destruct (decide (courseId e = cId')) as [He'|He'].
      * rewrite !find_hit by assumption. reflexivity.
      * rewrite !find_miss by assumption. exact IH.
Qed.


Lemma toggleIn_off_on l stored :
  toggleIn l false (toggleIn l true stored) = filter (λ id, id ≠ l) stored.
Proof.
  unfold toggleIn. simpl.
  destruct (bool_decide (l ∈ stored)); simpl; [reflexivity|].
  rewrite filter_app, filter_cons, decide_False by (intros H; apply H; reflexivity).
  rewrite filter_nil. apply app_nil_r.
Qed.

Lemma filter_out_only (l : string) (stored : list string) :
  (forall x, x ∈ stored -> x = l) -> filter (λ id, id ≠ l) stored = [].
Proof.
  induction stored as [|x xs IH]; intros Hall; [reflexivity|].
  rewrite filter_cons, decide_False.
  - apply IH. intros y Hy. apply Hall. right. exact Hy.
  - intros Hx. apply Hx. apply Hall. left.
Qed.

Lemma hasEntry_updateProgress cId cId' l b progress :
  hasEntry cId progress -> hasEntry cId (updateProgress cId' l b progress).
Proof.
  unfold hasEntry. intros H.
  destruct (decide (cId = cId')) as [->|Hne].
  - rewrite find_updateProgress_same. eexists; reflexivity.
  - rewrite find_updateProgress_other by exact Hne. exact H.
Qed.

Lemma updateProgress_courseIds cId l b progress :
  courseId <$> updateProgress cId l b progress =
  (courseId <$> progress) ++
  match find cId progress with Some _ => [] | None => [cId] end.
Proof.
  induction progress as [|e rest IH].
  - reflexivity.
  - head_case e cId.
    + rewrite find_hit by assumption. rewrite app_nil_r, !fmap_cons.
      reflexivity.
    + rewrite find_miss by assumption. rewrite !fmap_cons, IH. reflexivity.
Qed.

Lemma updateProgress_lookup_other cId l b progress i e :
  progress !! i = Some e -> courseId e ≠ cId ->
  updateProgress cId l b progress !! i = Some e.
Proof.
  revert i. induction progress as [|x rest IH]; intros i Hi Hne.
  - discriminate.
  - head_case x cId.
    + destruct i as [|i]; simpl in *; [|exact Hi].
      injection Hi as ->. contradiction.
    + destruct i as [|i]; simpl in *; [exact Hi|]. apply IH; assumption.
Qed.

Lemma updateProgress_filter_other cId l b progress :
  filter (λ p, courseId p ≠ cId) (updateProgress cId l b progress) =
  filter (λ p, courseId p ≠ cId) progress.
Proof.
  induction progress as [|e rest IH].
  - rewrite updateProgress_nil, filter_cons, decide_False; [reflexivity|].
    simpl. intros H. apply H. reflexivity.
  - head_case e cId.
    + rewrite !filter_cons, !decide_False; [reflexivity| |];
        simpl; intros H; apply H; assumption.
    + rewrite !filter_cons, !decide_True by assumption. f_equal. exact IH.
Qed.

(** C5. The toggle is idempotent: marking a leaf complete twice gives the
    collection that marking it once gives, and the same holds for marking
    it incomplete, for every collection, course and leaf. *)
Theorem updateProgress_idempotent :
  forall (cId l : string) (completed : bool) (progress : list ProgressEntry),
    updateProgress cId l completed (updateProgress cId l completed progress) =
    updateProgress cId l completed progress.
Proof.
  intros cId l b progress. induction progress as [|e rest IH].
  - rewrite updateProgress_nil, updateProgress_hit by reflexivity.
    simpl. f_equal. f_equal.
    destruct b.
    + unfold toggleIn. simpl. rewrite bool_decide_true; [reflexivity|]. left.
    + reflexivity.
  - head_case e cId.
    + simpl. rewrite toggleIn_idem. reflexivity.
    + f_equal. exact IH.
Qed.

(** C9. Marking a leaf incomplete for a course that has no entry does
    change the collection: the entry [{ courseId: c, completedModules: [] }]
    is appended at its end. *)
Theorem updateProgress_false_absent_appends :
  forall (cId l : string) (progress : list ProgressEntry),
    find cId progress = None ->
    updateProgress cId l false progress =
      progress ++ [ {| courseId := cId; completedModules := [] |} ]
    /\ updateProgress cId l false progress ≠ progress.
Proof.
  intros cId l progress Habs.
  rewrite (updateProgress_absent _ _ _ _ Habs). split; [reflexivity|].
  intros Heq. apply (f_equal length) in Heq.
  rewrite length_app in Heq. simpl in Heq. lia.
Qed.

Lemma updateProgress_false_absent_appends_witness :
  find "mm" [ {| courseId := "sd"; completedModules := ["sd-1"] |} ] = None
  /\ updateProgress "mm" "mm-1" false
       [ {| courseId := "sd"; completedModules := ["sd-1"] |} ] =
     [ {| courseId := "sd"; completedModules := ["sd-1"] |};
       {| courseId := "mm"; completedModules := [] |} ].
Proof.
  split; [reflexivity|].
  apply (updateProgress_false_absent_appends "mm" "mm-1"
           [ {| courseId := "sd"; completedModules := ["sd-1"] |} ]).
  reflexivity.
Defined.

(** C10. A toggle for course [c] is a frame for every other course: an
    entry of another course stays at its index, unchanged; the sequence of
    course IDs of the collection is kept, followed by [c] alone when [c]
    had no entry and by nothing otherwise, so the order of the entries is
    kept and at most one entry, for [c], is gained. *)
Theorem updateProgress_frame :
  forall (cId l : string) (completed : bool) (progress : list ProgressEntry),
    (forall i e, progress !! i = Some e -> courseId e ≠ cId ->
                 updateProgress cId l completed progress !! i = Some e)
    /\ filter (λ p, courseId p ≠ cId) (updateProgress cId l completed progress)
       = filter (λ p, courseId p ≠ cId) progress
    /\ courseId <$> updateProgress cId l completed progress =
       (courseId <$> progress) ++
       match find cId progress with Some _ => [] | None => [cId] end
    /\ length progress <= length (updateProgress cId l completed progress)
         <= S (length progress).
Proof.
  intros cId l b progress. split; [|split; [|split]].
  - intros i e. apply updateProgress_lookup_other.
  - apply updateProgress_filter_other.
  - apply updateProgress_courseIds.
  - pose proof (updateProgress_courseIds cId l b progress) as H.
    apply (f_equal length) in H.
    rewrite length_app, !length_fmap in H.
    destruct (find cId progress); simpl in H; lia.
Qed.

Lemma updateProgress_frame_witness :
  let progress := [ {| courseId := "sd"; completedModules := ["sd-1"] |};
                    {| courseId := "mm"; completedModules := ["mm-2"] |};
                    {| courseId := "fico"; completedModules := [] |} ] in
  progress !! 2 = Some {| courseId := "fico"; completedModules := [] |}
  /\ "fico" ≠ "mm"
  /\ updateProgress "mm" "mm-1" true progress !! 2 =
     Some {| courseId := "fico"; completedModules := [] |}.
Proof.
  intros progress. split; [reflexivity|]. split; [discriminate|].
  apply (proj1 (updateProgress_frame "mm" "mm-1" true progress) 2
           {| courseId := "fico"; completedModules := [] |}).
  - reflexivity.
  - discriminate.
Defined.

(** C6. No toggle removes an entry: a course that has an entry still has
    one after any run of toggles.  Marking a leaf complete and then
    incomplete leaves the course with an entry whose list is the stored
    one without that leaf; when nothing else was stored for the course
    the entry is present with the empty list and the completed count is 0. *)
Theorem entries_never_removed :
  (forall (ts : list toggle) (progress : list ProgressEntry) (cId : string),
      hasEntry cId progress -> hasEntry cId (applyToggles ts progress))
  /\ (forall (progress : list ProgressEntry) (cId l : string),
        find cId (updateProgress cId l false (updateProgress cId l true progress))
        = Some {| courseId := cId;
                  completedModules :=
                    filter (λ id, id ≠ l) (storedIds cId progress) |})
  /\ (forall (progress : list ProgressEntry) (cId l : string),
        (forall x, x ∈ storedIds cId progress -> x = l) ->
        let after :=
          updateProgress cId l false (updateProgress cId l true progress) in
        find cId after = Some {| courseId := cId; completedModules := [] |}
        /\ completedCount (find cId after) = 0).
Proof.
  assert (Hpair : forall progress cId l,
    find cId (updateProgress cId l false (updateProgress cId l true progress))
    = Some {| courseId := cId;
              completedModules :=
                filter (λ id, id ≠ l) (storedIds cId progress) |}).
  { intros progress cId l. rewrite find_updateProgress_same.
    unfold storedIds at 1. rewrite find_updateProgress_same. simpl.
    rewrite toggleIn_off_on. reflexivity. }
  split; [|split].
  - intros ts. induction ts as [|[[c m] b] ts IH]; intros progress cId H.
    + exact H.
    + simpl. apply IH. apply hasEntry_updateProgress. exact H.
  - exact Hpair.
  - intros progress cId l Honly after. subst after.
    rewrite Hpair, (filter_out_only _ _ Honly). split; reflexivity.
Qed.

Lemma entries_never_removed_witness :
  hasEntry "mm" (updateProgress "mm" "mm-1" true [])
  /\ hasEntry "mm"
       (applyToggles [("mm", "mm-1", false); ("sd", "sd-1", true)]
          (updateProgress "mm" "mm-1" true []))
  /\ find "mm" (updateProgress "mm" "mm-1" false
                  (updateProgress "mm" "mm-1" true []))
     = Some {| courseId := "mm"; completedModules := [] |}.
Proof.
  split; [eexists; reflexivity|]. split.
  - apply (proj1 entries_never_removed
             [("mm", "mm-1", false); ("sd", "sd-1", true)]
             (updateProgress "mm" "mm-1" true []) "mm").
    eexists; reflexivity.
  - apply (proj2 (proj2 entries_never_removed) [] "mm" "mm-1").
    intros x Hx. inversion Hx.
Defined.

End ProgressStore.

(** ** The completion aggregator *)

Section Counting.

(** Filtering keeps the length exactly when nothing is filtered out. *)
Lemma filter_length_all {A} (P : A -> Prop) `{!∀ x, Decision (P x)} (l : list A) :
  length (filter P l) = length l <-> Forall P l.
Proof.
  induction l as [|x l IH].
  - split; [constructor | reflexivity].
  - rewrite filter_cons. destruct (decide (P x)) as [Hx|Hx].
    + simpl. split.
      * intros Hlen. constructor; [exact Hx|]. apply IH. lia.
      * intros Hall. inversion Hall; subst. f_equal. apply IH. assumption.
    + pose proof (length_filter P l). simpl. split; [lia|].
      intros Hall. inversion Hall; subst. contradiction.
Qed.

Lemma stored_le_leaves (stored leaves : list string) :
  NoDup stored -> (forall x, x ∈ stored -> x ∈ leaves) ->
  length stored <= length leaves.
Proof.
  intros Hnd Hsub. apply submseteq_length, NoDup_submseteq; assumption.
Qed.

Lemma stored_all_leaves (stored leaves : list string) :
  NoDup stored -> NoDup leaves -> (forall x, x ∈ stored -> x ∈ leaves) ->
  length stored = length leaves <-> (forall x, x ∈ leaves -> x ∈ stored).
Proof.
  intros Hs Hl Hsub. split.
  - intros Hlen x Hx.
    assert (Hperm : stored ≡ₚ leaves).
    { apply submseteq_length_Permutation; [|lia].
      apply NoDup_submseteq; assumption. }
    rewrite Hperm. exact Hx.
  - intros Hsup.
    pose proof (stored_le_leaves stored leaves Hs Hsub).
    pose proof (stored_le_leaves leaves stored Hl Hsup). lia.
Qed.

(** The percentage [a / b * 100] of two counts, [b] not zero. *)
Lemma percent_bounds (a b : nat) :
  0 < b ->
  (0 <= QofNat a / QofNat b * 100)%Q
  /\ ((QofNat a / QofNat b * 100 <= 100)%Q <-> a <= b)
  /\ ((QofNat a / QofNat b * 100 == 100)%Q <-> a = b)
  /\ ((QofNat a / QofNat b * 100 == 0)%Q <-> a = 0).
Proof.
  intros Hb. destruct b as [|b]; [lia|].
  unfold QofNat, Qdiv, Qmult, Qinv, Qle, Qeq. simpl.
  repeat split; intros; try lia; try nia.
Qed.

End Counting.

Section Aggregator.

Import Progress.

Lemma completedCount_storedIds cId collection :
  completedCount (find cId collection) = length (storedIds cId collection).
Proof. unfold storedIds. destruct (find cId collection); reflexivity. Qed.

Lemma foldl_chapter_count (ms : list ChapterVariant.CourseModule) (acc : nat) :
  foldl (λ total module, total + length (ChapterVariant.chapters module)) acc ms
  = acc + sum_list ((λ module, length (ChapterVariant.chapters module)) <$> ms).
Proof.
  revert acc. induction ms as [|m ms IH]; intros acc.
  - simpl. lia.
  - rewrite fmap_cons. cbn [foldl sum_list sum_list_with].
    rewrite IH. unfold id. lia.
Qed.

Lemma sum_chapters_leafIds (ms : list ChapterVariant.CourseModule) :
  sum_list ((λ module, length (ChapterVariant.chapters module)) <$> ms)
  = length (ms ≫= ChapterVariant.moduleChapterIds).
Proof.
  induction ms as [|m ms IH]; [reflexivity|].
  rewrite fmap_cons, bind_cons, length_app. simpl. rewrite IH.
  unfold ChapterVariant.moduleChapterIds. rewrite length_fmap. reflexivity.
Qed.

Lemma getTotalChapters_leafIds course :
  ChapterVariant.getTotalChapters course
  = length (ChapterVariant.leafIds course).
Proof.
  unfold ChapterVariant.getTotalChapters, ChapterVariant.leafIds.
  rewrite foldl_chapter_count, sum_chapters_leafIds. reflexivity.
Qed.

(** The stored list against any list of leaf IDs. *)
Lemma stored_vs_filtered (leaves stored : list string) :
  length (filter (λ x, x ∈ leaves) stored) <= length stored
  /\ (length stored = length (filter (λ x, x ∈ leaves) stored)
      <-> forall x, x ∈ stored -> x ∈ leaves).
Proof.
  split; [apply length_filter|].
  rewrite <- Forall_forall.
  rewrite <- (filter_length_all (λ x, x ∈ leaves) stored).
  split; intros Hlen; symmetry; exact Hlen.
Qed.

(** C1, as the code has it. [completedLeaves] is the length of the list
    stored for the course (0 without an entry); nothing is filtered.  The
    count of the stored IDs that are leaf IDs of the catalog is at most
    that, and the two agree exactly when every stored ID is a leaf ID of
    the course, in both catalogs. *)
Theorem completedLeaves_is_stored_length :
  (forall (course : ChapterVariant.SAPCourse) (collection : list ProgressEntry),
      let stored := storedIds (ChapterVariant.id course) collection in
      let existing := filter (λ x, x ∈ ChapterVariant.leafIds course) stored in
      ChapterVariant.completedLeaves course collection = length stored
      /\ length existing <= ChapterVariant.completedLeaves course collection
      /\ (ChapterVariant.completedLeaves course collection = length existing
          <-> forall x, x ∈ stored -> x ∈ ChapterVariant.leafIds course))
  /\
  (forall (course : ModuleVariant.SAPCourse) (collection : list ProgressEntry),
      let stored := storedIds (ModuleVariant.id course) collection in
      let existing := filter (λ x, x ∈ ModuleVariant.leafIds course) stored in
      ModuleVariant.completedLeaves course collection = length stored
      /\ length existing <= ModuleVariant.completedLeaves course collection
      /\ (ModuleVariant.completedLeaves course collection = length existing
          <-> forall x, x ∈ stored -> x ∈ ModuleVariant.leafIds course)).
Proof.
  split; intros course collection stored existing; subst stored existing.
  - unfold ChapterVariant.completedLeaves, ChapterVariant.cardProgress.
    rewrite completedCount_storedIds.
    split; [reflexivity|]. apply stored_vs_filtered.
  - unfold ModuleVariant.completedLeaves, ModuleVariant.cardProgress.
    rewrite completedCount_storedIds.
    split; [reflexivity|]. apply stored_vs_filtered.
Qed.

Lemma completedLeaves_is_stored_length_witness :
  let collection :=
    [ {| courseId := "mm"; completedModules := ["mm-2"; "mm-5"] |} ] in
  (forall x, x ∈ storedIds "mm" collection ->
             x ∈ ModuleVariant.leafIds ModuleVariant.SAP_MM)
  /\ ModuleVariant.completedLeaves ModuleVariant.SAP_MM collection =
     length (filter (λ x, x ∈ ModuleVariant.leafIds ModuleVariant.SAP_MM)
               (storedIds "mm" collection)).
Proof.
  intros collection.
  assert (Hin : forall x, x ∈ storedIds "mm" collection ->
                          x ∈ ModuleVariant.leafIds ModuleVariant.SAP_MM).
  { intros x Hx. apply (bool_decide_unpack _).
    change (x ∈ ["mm-2"; "mm-5"]) in Hx.
    apply list_elem_of_In in Hx. simpl in Hx.
    destruct Hx as [<-|[<-|[]]]; reflexivity. }
  split; [exact Hin|].
  apply (proj2 (proj2 (proj2 completedLeaves_is_stored_length
                         ModuleVariant.SAP_MM collection))).
  exact Hin.
Defined.

(** C1, as stated, fails: a stored ID that is no leaf of the catalog is
    counted.  With [mm-0] stored next to [mm-1] the module catalog's card
    counts 2 where one stored ID exists; with the module ID [mm-1] stored
    the chapter catalog's card counts 1 where none exists. *)
Lemma completedLeaves_counts_stale_ids :
  (let collection :=
     [ {| courseId := "mm"; completedModules := ["mm-1"; "mm-0"] |} ] in
   ModuleVariant.completedLeaves ModuleVariant.SAP_MM collection = 2
   /\ length (filter (λ x, x ∈ ModuleVariant.leafIds ModuleVariant.SAP_MM)
                (storedIds "mm" collection)) = 1)
  /\
  (let collection :=
     [ {| courseId := "mm"; completedModules := ["mm-1"] |} ] in
   ChapterVariant.completedLeaves ChapterVariant.SAP_MM collection = 1
   /\ length (filter (λ x, x ∈ ChapterVariant.leafIds ChapterVariant.SAP_MM)
                (storedIds "mm" collection)) = 0).
Proof. repeat split. Qed.

(** The chapter card's percentage in terms of the two counts. *)
Lemma chapter_ratio_counts course collection :
  ChapterVariant.completionRatio course
    (ChapterVariant.cardProgress course collection)
  = if 0 <? length (ChapterVariant.leafIds course)
    then (QofNat (length (storedIds (ChapterVariant.id course) collection))
          / QofNat (length (ChapterVariant.leafIds course)) * 100)%Q
    else 0%Q.
Proof.
  unfold ChapterVariant.completionRatio, ChapterVariant.cardProgress.
  rewrite completedCount_storedIds, getTotalChapters_leafIds. reflexivity.
Qed.

(** C3, as the code has it. The code's [completionRatio] is the ratio as
    a percentage. In the chapter catalog it is 0 when the course has no
    leaf and 0 for a course without an entry, and never negative; when the
    stored IDs of the course are distinct leaf IDs of a catalog whose leaf
    IDs are distinct, it is at most 100, and it is 100 exactly when the
    course has a leaf and every leaf ID is stored.  In the module catalog
    the same holds for a course whose declared [totalModules] is its
    module count and is not 0. *)
Theorem completionRatio_bounds :
  (forall (course : ChapterVariant.SAPCourse) (collection : list ProgressEntry),
      let stored := storedIds (ChapterVariant.id course) collection in
      let leaves := ChapterVariant.leafIds course in
      let r := ChapterVariant.completionRatio course
                 (ChapterVariant.cardProgress course collection) in
      (0 <= r)%Q
      /\ (ChapterVariant.getTotalChapters course = 0 -> (r == 0)%Q)
      /\ (find (ChapterVariant.id course) collection = None -> (r == 0)%Q)
      /\ (NoDup stored -> NoDup leaves ->
          (forall x, x ∈ stored -> x ∈ leaves) ->
          (r <= 100)%Q
          /\ ((r == 100)%Q <->
              0 < ChapterVariant.getTotalChapters course
              /\ forall x, x ∈ leaves -> x ∈ stored)))
  /\
  (forall (course : ModuleVariant.SAPCourse) (collection : list ProgressEntry),
      let stored := storedIds (ModuleVariant.id course) collection in
      let leaves := ModuleVariant.leafIds course in
      0 < ModuleVariant.totalModules course ->
      ModuleVariant.totalModules course = ModuleVariant.moduleCount course ->
      exists r,
        ModuleVariant.completionRatio course
          (ModuleVariant.cardProgress course collection) = Finite r
        /\ (0 <= r)%Q
        /\ (find (ModuleVariant.id course) collection = None -> (r == 0)%Q)
        /\ (NoDup stored -> NoDup leaves ->
            (forall x, x ∈ stored -> x ∈ leaves) ->
            (r <= 100)%Q
            /\ ((r == 100)%Q <-> forall x, x ∈ leaves -> x ∈ stored))).
Proof.
  split.
  - intros course collection stored leaves r. subst r.
    rewrite chapter_ratio_counts, getTotalChapters_leafIds.
    fold stored. fold leaves.
    destruct (length leaves) as [|n] eqn:Hn.
    + simpl. repeat split; try reflexivity; try discriminate; try lia.
    + change (0 <? S n) with true. cbv iota.
      destruct (percent_bounds (length stored) (S n) ltac:(lia))
        as (Hge & Hle & Heq & Hzero).
      split; [exact Hge|]. split; [intros; discriminate|]. split.
      * intros Habs. apply Hzero. subst stored. unfold storedIds.
        rewrite Habs. reflexivity.
      * intros Hs Hl Hsub. split.
        -- apply Hle. rewrite <- Hn. apply stored_le_leaves; assumption.
        -- rewrite Heq, <- Hn.
           rewrite (stored_all_leaves stored leaves Hs Hl Hsub).
           split; [intros H; split; [lia | exact H] | intros [_ H]; exact H].
  - intros course collection stored leaves Hpos Hdecl.
    unfold ModuleVariant.completionRatio, ModuleVariant.cardProgress.
    rewrite completedCount_storedIds. fold stored.
    assert (Hlen : ModuleVariant.totalModules course = length leaves).
    { rewrite Hdecl. unfold ModuleVariant.moduleCount, leaves,
        ModuleVariant.leafIds. rewrite length_fmap. reflexivity. }
    destruct (ModuleVariant.totalModules course) as [|n] eqn:Hn; [lia|].
    destruct (percent_bounds (length stored) (S n) ltac:(lia))
      as (Hge & Hle & Heq & Hzero).
    eexists. split; [reflexivity|].
    split; [exact Hge|]. split.
    + intros Habs. apply Hzero. subst stored. unfold storedIds.
      rewrite Habs. reflexivity.
    + intros Hs Hl Hsub. split.
      * apply Hle. rewrite Hlen. apply stored_le_leaves; assumption.
      * rewrite Heq, Hlen. apply stored_all_leaves; assumption.
Qed.

Lemma completionRatio_bounds_witness :
  (let course := ChapterVariant.SAP_MM in
   let collection :=
     [ {| courseId := "mm"; completedModules := ["mm-c1.1"; "mm-c2.2"] |} ] in
   NoDup (storedIds "mm" collection)
   /\ NoDup (ChapterVariant.leafIds course)
   /\ (forall x, x ∈ storedIds "mm" collection ->
                 x ∈ ChapterVariant.leafIds course)
   /\ (ChapterVariant.completionRatio course
         (ChapterVariant.cardProgress course collection) <= 100)%Q)
  /\
  (let course := ModuleVariant.SAP_MM in
   let collection :=
     [ {| courseId := "mm"; completedModules := ["mm-2"; "mm-5"] |} ] in
   0 < ModuleVariant.totalModules course
   /\ ModuleVariant.totalModules course = ModuleVariant.moduleCount course
   /\ exists r,
        ModuleVariant.completionRatio course
          (ModuleVariant.cardProgress course collection) = Finite r
        /\ (0 <= r)%Q).
Proof.
  split.
  - intros course collection.
    assert (Hs : NoDup (storedIds "mm" collection))
      by (apply (bool_decide_unpack _); reflexivity).
    assert (Hl : NoDup (ChapterVariant.leafIds course))
      by (apply (bool_decide_unpack _); reflexivity).
    assert (Hsub : forall x, x ∈ storedIds "mm" collection ->
                             x ∈ ChapterVariant.leafIds course).
    { apply Forall_forall. apply (bool_decide_unpack _). reflexivity. }
    split; [exact Hs|]. split; [exact Hl|]. split; [exact Hsub|].
    exact (proj1 (proj2 (proj2 (proj2
             (proj1 completionRatio_bounds course collection))) Hs Hl Hsub)).
  - intros course collection.
    assert (Hpos : 0 < ModuleVariant.totalModules course)
      by (apply (bool_decide_unpack _); reflexivity).
    assert (Hdecl : ModuleVariant.totalModules course
                    = ModuleVariant.moduleCount course) by reflexivity.
    split; [exact Hpos|]. split; [exact Hdecl|].
    destruct (proj2 completionRatio_bounds course collection Hpos Hdecl)
      as (r & Hr & Hge & _).
    exists r. split; [exact Hr | exact Hge].
Defined.

(** C3, as stated, fails.  With every chapter of [mm] stored next to the
    stale ID [mm-1], every leaf ID is in the completed list and the
    percentage is above 100 (a ratio above 1, and not 1).  For a course
    without modules every leaf ID is (vacuously) stored and the percentage
    is 0, not 100. *)
Lemma completionRatio_exceeds_one :
  (let course := ChapterVariant.SAP_MM in
   let collection :=
     [ {| courseId := "mm";
          completedModules := ChapterVariant.leafIds course ++ ["mm-1"] |} ] in
   (forall x, x ∈ ChapterVariant.leafIds course ->
              x ∈ storedIds "mm" collection)
   /\ (100 < ChapterVariant.completionRatio course
               (ChapterVariant.cardProgress course collection))%Q)
  /\
  (let course :=
     {| ChapterVariant.id := "new"; ChapterVariant.title := "";
        ChapterVariant.domain := ChapterVariant.Technical;
        ChapterVariant.totalModules := 0; ChapterVariant.modules := [];
        ChapterVariant.description := "" |} in
   (forall x, x ∈ ChapterVariant.leafIds course -> x ∈ storedIds "new" [])
   /\ (ChapterVariant.completionRatio course
         (ChapterVariant.cardProgress course []) == 0)%Q).
Proof.
  split.
  - intros course collection. split.
    + apply Forall_forall. apply (bool_decide_unpack _). reflexivity.
    + reflexivity.
  - intros course. split.
    + intros x Hx. inversion Hx.
    + reflexivity.
Qed.

(** C8, as the code has it.  In the chapter catalog the denominator is
    [getTotalChapters], the sum of the chapter counts of the modules: two
    courses with the same modules get the same percentage and the same
    completion flag whatever their declared [totalModules], and a course
    is complete exactly when the count equals that sum and the sum is not
    0.  In the module catalog the denominator is the declared
    [totalModules]: two courses with the same declared value get the same
    percentage and flag whatever their modules, and a course is complete
    exactly when the count equals the declared value. *)
Theorem ratio_denominator :
  (forall (course : ChapterVariant.SAPCourse),
      ChapterVariant.getTotalChapters course =
      sum_list ((λ module, length (ChapterVariant.chapters module))
                  <$> ChapterVariant.modules course))
  /\ (forall (c c' : ChapterVariant.SAPCourse) (progress : option ProgressEntry),
        ChapterVariant.modules c = ChapterVariant.modules c' ->
        ChapterVariant.completionRatio c progress
          = ChapterVariant.completionRatio c' progress
        /\ ChapterVariant.isCompleted c progress
          = ChapterVariant.isCompleted c' progress)
  /\ (forall (course : ChapterVariant.SAPCourse) (progress : option ProgressEntry),
        ChapterVariant.isCompleted course progress = true <->
        completedCount progress = ChapterVariant.getTotalChapters course
        /\ 0 < ChapterVariant.getTotalChapters course)
  /\ (forall (c c' : ModuleVariant.SAPCourse) (progress : option ProgressEntry),
        ModuleVariant.totalModules c = ModuleVariant.totalModules c' ->
        ModuleVariant.completionRatio c progress
          = ModuleVariant.completionRatio c' progress
        /\ ModuleVariant.isCompleted c progress
          = ModuleVariant.isCompleted c' progress)
  /\ (forall (course : ModuleVariant.SAPCourse) (progress : option ProgressEntry),
        ModuleVariant.isCompleted course progress = true <->
        completedCount progress = ModuleVariant.totalModules course).
Proof.
  split; [|split; [|split; [|split]]].
  - intros course. unfold ChapterVariant.getTotalChapters.
    rewrite foldl_chapter_count. reflexivity.
  - intros c c' progress Hm.
    unfold ChapterVariant.completionRatio, ChapterVariant.isCompleted,
      ChapterVariant.getTotalChapters.
    rewrite Hm. split; reflexivity.
  - intros course progress. unfold ChapterVariant.isCompleted.
    rewrite andb_true_iff, Nat.eqb_eq, Nat.ltb_lt. reflexivity.
  - intros c c' progress Ht.
    unfold ModuleVariant.completionRatio, ModuleVariant.isCompleted.
    rewrite Ht. split; reflexivity.
  - intros course progress. unfold ModuleVariant.isCompleted.
    apply Nat.eqb_eq.
Qed.

Lemma ratio_denominator_witness :
  let short :=
    {| ModuleVariant.id := "mm"; ModuleVariant.title := "";
       ModuleVariant.domain := ModuleVariant.Logistics;
       ModuleVariant.totalModules := 5;
       ModuleVariant.modules := [ModuleVariant.mkModule "mm-1" ""];
       ModuleVariant.description := "" |} in
  let progress :=
    Some {| courseId := "mm"; completedModules := ["mm-1"] |} in
  ModuleVariant.totalModules short
    = ModuleVariant.totalModules ModuleVariant.SAP_MM
  /\ ModuleVariant.completionRatio short progress
    = ModuleVariant.completionRatio ModuleVariant.SAP_MM progress.
Proof.
  intros short progress. split; [reflexivity|].
  apply (proj1 (proj2 (proj2 (proj2 ratio_denominator)))
           short ModuleVariant.SAP_MM progress).
  reflexivity.
Defined.

(** C8, as stated, fails in the module catalog.  A course that declares
    [totalModules: 5] and lists two modules, both completed, has computed
    count 2 = completed count, and still the card shows 40 percent and
    the course is not complete: the declared field decides. *)
Lemma declared_totalModules_decides :
  let course :=
    {| ModuleVariant.id := "mm";
       ModuleVariant.title := "SAP MM (Materials Management)";
       ModuleVariant.domain := ModuleVariant.Logistics;
       ModuleVariant.totalModules := 5;
       ModuleVariant.modules :=
         [ ModuleVariant.mkModule "mm-1" "Master Data Setup (Vendor & Material)";
           ModuleVariant.mkModule "mm-2" "Purchase Requisition & Order Processing" ];
       ModuleVariant.description := "" |} in
  let collection :=
    [ {| courseId := "mm"; completedModules := ["mm-1"; "mm-2"] |} ] in
  let progress := ModuleVariant.cardProgress course collection in
  ModuleVariant.moduleCount course = 2
  /\ ModuleVariant.completedLeaves course collection = 2
  /\ ModuleVariant.isCompleted course progress = false
  /\ exists r, ModuleVariant.completionRatio course progress = Finite r
               /\ (r == 40)%Q.
Proof.
  intros course collection progress.
  split; [reflexivity|]. split; [reflexivity|]. split; [reflexivity|].
  eexists. split; reflexivity.
Qed.

End Aggregator.

(** ** Loading the stored progress *)

Section LoadingProgress.

Import Progress Loader.

Variable SyntaxError : Type.
Variable JSON_parse : string -> result SyntaxError (list ProgressEntry).

(** The empty text is not JSON. *)
Hypothesis JSON_parse_empty : forall parsed, JSON_parse "" ≠ Return parsed.

Lemma USER_ID_KEY_ne_PROGRESS_KEY : USER_ID_KEY ≠ PROGRESS_KEY.
Proof. discriminate. Qed.

(** The identity part of the effect leaves the progress key alone. *)
Lemma progress_key_kept (uuid : string) (ls : gmap string string) :
  <[USER_ID_KEY := uuid]> ls !! PROGRESS_KEY = ls !! PROGRESS_KEY.
Proof. apply lookup_insert_ne, USER_ID_KEY_ne_PROGRESS_KEY. Qed.

(** C7. The mount effect always returns, whatever the storage holds, and
    leaves the hook loaded.  Without a stored string, or with one
    [JSON.parse] rejects, the collection is empty; a rejected non-empty
    string adds one line to the console and nothing else.  With a string
    that parses, the parsed entries are the collection. *)
Theorem loadEffect_total :
  forall (uuid : string) (b : Browser),
    let stored := localStorage b !! PROGRESS_KEY in
    exists st' b',
      loadEffect SyntaxError JSON_parse uuid initialState b = Return (st', b')
      /\ loading st' = false
      /\ (stored = None -> progress st' = [] /\ console b' = console b)
      /\ (forall text error,
            stored = Some text -> JSON_parse text = Throw error ->
            progress st' = []
            /\ (text ≠ "" ->
                console b' =
                console b ++ ["Error parsing progress from localStorage:"]))
      /\ (forall text parsed,
            stored = Some text -> JSON_parse text = Return parsed ->
            progress st' = parsed /\ console b' = console b).
Proof.
  intros uuid b stored. subst stored. unfold loadEffect.
  destruct (negb (truthy (localStorage b !! USER_ID_KEY))); cbn zeta beta iota;
    cbn [localStorage console progress loading userId initialState];
    rewrite ?progress_key_kept;
    (destruct (localStorage b !! PROGRESS_KEY) as [text|] eqn:Hstored;
     [ destruct (decide (text = "")) as [->|Hne];
       [ | unfold truthy; rewrite (bool_decide_false _ Hne); cbn [negb];
           destruct (JSON_parse text) as [parsed|error] eqn:Hparse ]
     | ]);
    cbn; eexists; eexists; (split; [reflexivity|]); cbn;
    repeat split; try congruence;
    try (intros ? ? [= <-] ?; try congruence);
    try (intros ? ? [= <-] Hp; exfalso; exact (JSON_parse_empty _ Hp)).
Qed.

End LoadingProgress.

Lemma loadEffect_total_witness :
  (forall parsed, Loader.parseEmptyArray "" ≠ Return parsed)
  /\ exists st' b',
       Loader.loadEffect unit Loader.parseEmptyArray "u-1" Loader.initialState
         {| Loader.localStorage := {[ Loader.PROGRESS_KEY := "{not json" ]};
            Loader.console := [] |} = Return (st', b')
       /\ Loader.loading st' = false.
Proof.
  assert (Hempty : forall parsed, Loader.parseEmptyArray "" ≠ Return parsed)
    by (intros parsed; discriminate).
  split; [exact Hempty|].
  destruct (loadEffect_total unit Loader.parseEmptyArray Hempty "u-1"
              {| Loader.localStorage := {[ Loader.PROGRESS_KEY := "{not json" ]};
                 Loader.console := [] |})
    as (st' & b' & Hrun & Hloaded & _).
  exists st', b'. split; [exact Hrun | exact Hloaded].
Defined.

(** ** The retrying request wrapper *)

Section Retrying.

Import Request.

Variable Json : Type.
Variable errorMessage : Json -> result Exn string.
Variable fetch : nat -> FetchResult Json.
Variable random : nat -> Q.

#[local] Abbreviation attempts := (attempts Json errorMessage fetch random).
#[local] Abbreviation run :=
  (fetchWithExponentialBackoff Json errorMessage fetch random).
#[local] Abbreviation backoff := (backoff random).
#[local] Abbreviation afterFetch w := (snd (doFetch Json fetch w)).

(** One iteration, case by case. *)

Lemma attempts_success maxRetries remaining i w response data :
  fetch (fetches w) = Resolved Json response ->
  ok Json response = true -> json Json response = Some data ->
  attempts maxRetries (S remaining) i w = (Return data, afterFetch w).
Proof.
  intros Hf Hok Hjson. simpl. rewrite Hf, Hok, Hjson. reflexivity.
Qed.

Lemma attempts_429 maxRetries remaining i w response :
  fetch (fetches w) = Resolved Json response ->
  status Json response = 429 -> i < maxRetries - 1 ->
  attempts maxRetries (S remaining) i w =
  attempts maxRetries remaining (S i) (backoff i (afterFetch w)).
Proof.
  intros Hf Hst Hi. simpl. rewrite Hf. unfold ok. rewrite Hst. simpl.
  assert (Hlt : (i <? maxRetries - 1) = true) by (apply Nat.ltb_lt; exact Hi).
  assert (Hne : (i =? maxRetries - 1) = false) by (apply Nat.eqb_neq; lia).
  rewrite Hlt, Hne. destruct (json Json response); reflexivity.
Qed.

Lemma attempts_failure_retried maxRetries remaining i w response :
  fetch (fetches w) = Resolved Json response ->
  ok Json response = false -> i ≠ maxRetries - 1 ->
  attempts maxRetries (S remaining) i w =
  attempts maxRetries remaining (S i) (backoff i (afterFetch w)).
Proof.
  intros Hf Hok Hi. simpl. rewrite Hf, Hok. simpl.
  assert (Hne : (i =? maxRetries - 1) = false) by (apply Nat.eqb_neq; exact Hi).
  rewrite Hne.
  destruct (json Json response); [|reflexivity].
  destruct ((status Json response =? 429) && (i <? maxRetries - 1));
    reflexivity.
Qed.

Lemma attempts_failure_last maxRetries remaining i w response :
  fetch (fetches w) = Resolved Json response ->
  ok Json response = false -> i = maxRetries - 1 ->
  exists error,
    attempts maxRetries (S remaining) i w = (Throw error, afterFetch w).
Proof.
  intros Hf Hok Hi. simpl. rewrite Hf, Hok. simpl.
  assert (He : (i =? maxRetries - 1) = true) by (apply Nat.eqb_eq; exact Hi).
  assert (Hlt : (i <? maxRetries - 1) = false) by (apply Nat.ltb_ge; lia).
  rewrite He, Hlt, andb_false_r.
  destruct (json Json response); eexists; reflexivity.
Qed.

(** A run only adds to what has happened, and an iteration starts with a
    [fetch]. *)
Lemma attempts_extends maxRetries remaining i w :
  exists more,
    trace (snd (attempts maxRetries remaining i w)) = trace w ++ more.
Proof.
  revert i w. induction remaining as [|remaining IH]; intros i w.
  - exists []. simpl. rewrite app_nil_r. reflexivity.
  - assert (Hnext : forall i',
      exists more,
        trace (snd (attempts maxRetries remaining i'
                      (backoff i (afterFetch w))))
        = trace w ++ more).
    { intros i'.
      destruct (IH i' (backoff i (afterFetch w))) as [more Hmore].
      rewrite Hmore. simpl. rewrite <- !app_assoc. eexists; reflexivity. }
    assert (Hstop : exists more, trace (afterFetch w) = trace w ++ more)
      by (eexists; reflexivity).
    simpl.
    destruct (fetch (fetches w)) as [error|response];
      [ destruct (i =? maxRetries - 1); [exact Hstop | apply Hnext] |].
    destruct (negb (ok Json response));
      destruct (json Json response);
      try destruct ((status Json response =? 429) && (i <? maxRetries - 1));
      try destruct (i =? maxRetries - 1);
      first [exact Hstop | apply Hnext].
Qed.

Lemma attempts_starts_fetching maxRetries remaining i w :
  exists more,
    trace (snd (attempts maxRetries (S remaining) i w))
    = trace w ++ Fetched (fetches w) :: more.
Proof.
  assert (Hnext : forall i',
    exists more,
      trace (snd (attempts maxRetries remaining i'
                    (backoff i (afterFetch w))))
      = trace w ++ Fetched (fetches w) :: more).
  { intros i'.
    destruct (attempts_extends maxRetries remaining i'
                (backoff i (afterFetch w))) as [more Hmore].
    rewrite Hmore. simpl. rewrite <- !app_assoc. eexists; reflexivity. }
  assert (Hstop : exists more,
            trace (afterFetch w) = trace w ++ Fetched (fetches w) :: more)
    by (eexists; reflexivity).
  simpl.
  destruct (fetch (fetches w)) as [error|response];
    [ destruct (i =? maxRetries - 1); [exact Hstop | apply Hnext] |].
  destruct (negb (ok Json response));
    destruct (json Json response);
    try destruct ((status Json response =? 429) && (i <? maxRetries - 1));
    try destruct (i =? maxRetries - 1);
    first [exact Hstop | apply Hnext].
Qed.

(** The delay before the attempt after [i]: the base [2^i * 1000] plus a
    jitter below 1000 when the random value is in [[0, 1)]. *)
Lemma delayOf_bounds (i : nat) (r : Q) :
  (0 <= r)%Q -> (r < 1)%Q ->
  (QofNat (2 ^ i) * 1000 <= delayOf i r)%Q
  /\ (delayOf i r < QofNat (2 ^ i) * 1000 + 1000)%Q.
Proof. intros H0 H1. unfold delayOf. split; lra. Qed.

(** C4. With [maxRetries = 5], a 429 answer to the attempts 0, 1 and 2
    and a success answer to attempt 3, the wrapper returns the parsed body
    of the success answer after exactly four fetches; between attempt [i]
    and attempt [i+1] it sleeps once, for [2^i * 1000] plus
    [Math.random() * 1000] milliseconds.  The bases are 1000, 2000 and
    4000, and with random values in [[0, 1)] each delay is at least its
    base and less than 1000 above it. *)
Theorem three_429_then_success :
  forall (r0 r1 r2 r3 : Response Json) (body : Json),
    fetch 0 = Resolved Json r0 -> status Json r0 = 429 ->
    fetch 1 = Resolved Json r1 -> status Json r1 = 429 ->
    fetch 2 = Resolved Json r2 -> status Json r2 = 429 ->
    fetch 3 = Resolved Json r3 ->
    ok Json r3 = true -> json Json r3 = Some body ->
    let d i := delayOf i (random i) in
    fst (run 5) = Return body
    /\ trace (snd (run 5)) =
       [ Fetched 0; Slept (d 0); Fetched 1; Slept (d 1);
         Fetched 2; Slept (d 2); Fetched 3 ]
    /\ delays (trace (snd (run 5))) = [d 0; d 1; d 2]
    /\ fetchCalls (trace (snd (run 5))) = [0; 1; 2; 3]
    /\ ((delayOf 0 0 == 1000)%Q /\ (delayOf 1 0 == 2000)%Q
        /\ (delayOf 2 0 == 4000)%Q)
    /\ ((forall n, (0 <= random n)%Q /\ (random n < 1)%Q) ->
        (1000 <= d 0%nat)%Q /\ (d 0%nat < 2000)%Q
        /\ (2000 <= d 1%nat)%Q /\ (d 1%nat < 3000)%Q
        /\ (4000 <= d 2%nat)%Q /\ (d 2%nat < 5000)%Q).
Proof.
  intros r0 r1 r2 r3 body H0 S0 H1 S1 H2 S2 H3 Hok Hbody d.
  assert (Hrun : run 5 =
    (Return body,
     {| fetches := 4; randoms := 3;
        trace := [ Fetched 0; Slept (d 0); Fetched 1; Slept (d 1);
                   Fetched 2; Slept (d 2); Fetched 3 ] |})).
  { unfold fetchWithExponentialBackoff.
    rewrite (attempts_429 5 4 0 start r0 H0 S0) by lia.
    rewrite (attempts_429 5 3 1 _ r1); [| exact H1 | exact S1 | lia].
    rewrite (attempts_429 5 2 2 _ r2); [| exact H2 | exact S2 | lia].
    rewrite (attempts_success 5 1 3 _ r3 body);
      [| exact H3 | exact Hok | exact Hbody].
    reflexivity. }
  rewrite Hrun. cbn [fst snd trace].
  split; [reflexivity|]. split; [reflexivity|].
  split; [reflexivity|]. split; [reflexivity|]. split.
  - repeat split.
  - intros Hrand.
    destruct (Hrand 0) as [Ha0 Hb0], (Hrand 1) as [Ha1 Hb1],
             (Hrand 2) as [Ha2 Hb2].
    subst d. unfold delayOf, QofNat. cbn [Nat.pow Nat.mul Nat.add].
    change (inject_Z (Z.of_nat 1)) with 1%Q.
    change (inject_Z (Z.of_nat 2)) with 2%Q.
    change (inject_Z (Z.of_nat 4)) with 4%Q.
    repeat split; lra.
Qed.

(** C2, where the code departs from it.  With [maxRetries] at least 2, a
    first answer whose status is neither a success nor 429 does not end
    the call: the wrapper sleeps for the first backoff delay and fetches
    again; and when that second answer is a success its body is returned,
    so the failure is never raised. *)
Theorem non_429_failure_is_retried :
  forall (maxRetries : nat) (response : Response Json),
    2 <= maxRetries ->
    fetch 0 = Resolved Json response ->
    ok Json response = false -> status Json response ≠ 429 ->
    (exists more,
        trace (snd (run maxRetries)) =
        Fetched 0 :: Slept (delayOf 0 (random 0)) :: Fetched 1 :: more)
    /\ (forall (second : Response Json) (body : Json),
          fetch 1 = Resolved Json second ->
          ok Json second = true -> json Json second = Some body ->
          fst (run maxRetries) = Return body
          /\ trace (snd (run maxRetries)) =
             [Fetched 0; Slept (delayOf 0 (random 0)); Fetched 1]).
Proof.
  intros maxRetries response Hmax H0 Hok Hst.
  destruct maxRetries as [|[|k]]; [lia | lia |].
  unfold fetchWithExponentialBackoff.
  rewrite (attempts_failure_retried (S (S k)) (S k) 0 start response H0 Hok)
    by (simpl; lia).
  split.
  - destruct (attempts_starts_fetching (S (S k)) k 1
                (backoff 0 (afterFetch start))) as [more Hmore].
    exists more. rewrite Hmore. reflexivity.
  - intros second body H1 Hok1 Hbody.
    rewrite (attempts_success (S (S k)) k 1 _ second body);
      [| exact H1 | exact Hok1 | exact Hbody].
    split; reflexivity.
Qed.

(** On the last attempt, and so with [maxRetries = 1] on the first, the
    same answer ends the call at once. *)
Lemma failure_on_last_attempt_is_raised (response : Response Json) :
  fetch 0 = Resolved Json response -> ok Json response = false ->
  exists error,
    fst (run 1) = Throw error /\ trace (snd (run 1)) = [Fetched 0].
Proof.
  intros H0 Hok. unfold fetchWithExponentialBackoff.
  destruct (attempts_failure_last 1 0 0 start response H0 Hok eq_refl)
    as [error Herr].
  exists error. rewrite Herr. split; reflexivity.
Qed.

End Retrying.

Lemma three_429_then_success_witness :
  Request.status string
    {| Request.status := 429; Request.statusText := "Too Many Requests";
       Request.json := Some "slow down" |} = 429
  /\ Request.ok string
       {| Request.status := 200; Request.statusText := "OK";
          Request.json := Some "answer" |} = true
  /\ fst (Request.fetchWithExponentialBackoff string Request.messageOf
            Request.busyThenFine Request.halves 5) = Return "answer".
Proof.
  split; [reflexivity|]. split; [reflexivity|].
  refine (proj1 (three_429_then_success string Request.messageOf
                   Request.busyThenFine Request.halves
                   _ _ _ _ "answer" eq_refl eq_refl eq_refl eq_refl
                   eq_refl eq_refl eq_refl eq_refl eq_refl)).
Defined.

Lemma non_429_failure_is_retried_witness :
  2 <= 5
  /\ Request.ok string
       {| Request.status := 400; Request.statusText := "Bad Request";
          Request.json := Some "bad request" |} = false
  /\ fst (Request.fetchWithExponentialBackoff string Request.messageOf
            Request.badThenFine Request.halves 5) = Return "answer"
  /\ Request.trace
       (snd (Request.fetchWithExponentialBackoff string Request.messageOf
               Request.badThenFine Request.halves 5))
     = [ Request.Fetched 0; Request.Slept (Request.delayOf 0 (1 # 2));
         Request.Fetched 1 ].
Proof.
  split; [lia|]. split; [reflexivity|].
  refine (proj2 (non_429_failure_is_retried string Request.messageOf
                   Request.badThenFine Request.halves 5 _ _ eq_refl eq_refl _)
            _ "answer"
            eq_refl eq_refl eq_refl).
  - lia.
  - discriminate.
Defined.

(** ** Scenarios, by evaluation *)

Section Scenarios.

Import Progress.

(** Marking [mm-1] to [mm-4] complete gives 80 percent of the five modules
    of [mm]; marking [mm-5] as well gives 100 percent and a completed
    course. *)
Example mm_four_of_five :
  let collection :=
    applyToggles [ ("mm", "mm-1", true); ("mm", "mm-2", true);
                   ("mm", "mm-3", true); ("mm", "mm-4", true) ] [] in
  let progress := ModuleVariant.cardProgress ModuleVariant.SAP_MM collection in
  collection =
    [ {| courseId := "mm";
         completedModules := ["mm-1"; "mm-2"; "mm-3"; "mm-4"] |} ]
  /\ ModuleVariant.isCompleted ModuleVariant.SAP_MM progress = false
  /\ exists r,
       ModuleVariant.completionRatio ModuleVariant.SAP_MM progress = Finite r
       /\ (r == 80)%Q.
Proof.
  split; [reflexivity|]. split; [reflexivity|].
  eexists. split; reflexivity.
Qed.

Example mm_five_of_five :
  let collection :=
    applyToggles [ ("mm", "mm-1", true); ("mm", "mm-2", true);
                   ("mm", "mm-3", true); ("mm", "mm-4", true);
                   ("mm", "mm-5", true) ] [] in
  let progress := ModuleVariant.cardProgress ModuleVariant.SAP_MM collection in
  ModuleVariant.isCompleted ModuleVariant.SAP_MM progress = true
  /\ exists r,
       ModuleVariant.completionRatio ModuleVariant.SAP_MM progress = Finite r
       /\ (r == 100)%Q.
Proof.
  split; [reflexivity|]. eexists. split; reflexivity.
Qed.

(** The chapter catalog's [mm] has eleven chapters in five modules. *)
Example mm_chapters :
  ChapterVariant.getTotalChapters ChapterVariant.SAP_MM = 11
  /\ ChapterVariant.totalModules ChapterVariant.SAP_MM = 5.
Proof. split; reflexivity. Qed.

(** A declared total of 0 divides by zero. *)
Example zero_declared_total :
  let course :=
    {| ModuleVariant.id := "new"; ModuleVariant.title := "";
       ModuleVariant.domain := ModuleVariant.Technical;
       ModuleVariant.totalModules := 0; ModuleVariant.modules := [];
       ModuleVariant.description := "" |} in
  ModuleVariant.completionRatio course None = NaN
  /\ ModuleVariant.isCompleted course None = true.
Proof. split; reflexivity. Qed.

(** Marking complete twice stores the leaf once; marking a second leaf
    incomplete changes nothing. *)
Example toggle_twice :
  applyToggles [ ("sd", "sd-1", true); ("sd", "sd-1", true);
                 ("sd", "sd-2", false) ] []
  = [ {| courseId := "sd"; completedModules := ["sd-1"] |} ].
Proof. reflexivity. Qed.

(** The stored empty array loads as the empty collection, without a
    console line, and a fresh identity is written. *)
Example load_empty_array :
  Loader.loadEffect unit Loader.parseEmptyArray "u-1" Loader.initialState
    {| Loader.localStorage := {[ Loader.PROGRESS_KEY := "[]" ]};
       Loader.console := [] |}
  = Return
      ({| Loader.progress := []; Loader.loading := false;
          Loader.userId := "u-1" |},
       {| Loader.localStorage :=
            <[ Loader.USER_ID_KEY := "u-1" ]> {[ Loader.PROGRESS_KEY := "[]" ]};
          Loader.console := [] |}).
Proof. reflexivity. Qed.

(** With no attempt allowed the loop body never runs. *)
Example no_attempts :
  Request.fetchWithExponentialBackoff string Request.messageOf
    Request.busyThenFine Request.halves 0
  = (Throw Request.MaximumRetriesReached, Request.start).
Proof. reflexivity. Qed.

(** Five 429 answers in a row use up the five attempts: four delays, and
    the failure of the last answer is raised. *)
Example always_busy :
  let busy (call : nat) :=
    Request.Resolved string
      {| Request.status := 429; Request.statusText := "Too Many Requests";
         Request.json := Some "slow down" |} in
  let '(outcome, w) :=
    Request.fetchWithExponentialBackoff string Request.messageOf busy
      Request.halves 5 in
  outcome = Throw (Request.ApiRequestFailed 429 "Too Many Requests"
                     "slow down")
  /\ Request.fetchCalls (Request.trace w) = [0; 1; 2; 3; 4]
  /\ length (Request.delays (Request.trace w)) = 4.
Proof. repeat split. Qed.

End Scenarios.

(** * Further properties of the code *)

(** ** Reading the completion of a leaf, and the buttons of the detail view *)

Section DetailView.

Import Progress Detail.

Lemma elem_of_toggleIn (x l : string) (b : bool) (stored : list string) :
  x ∈ toggleIn l b stored <->
  if b then x = l \/ x ∈ stored else x ≠ l /\ x ∈ stored.
Proof.
  unfold toggleIn. destruct b; simpl.
  - destruct (bool_decide (l ∈ stored)) eqn:Hin; simpl.
    + apply bool_decide_eq_true in Hin. split; [tauto|].
      intros [->|Hx]; assumption.
    + rewrite elem_of_app, list_elem_of_singleton. tauto.
  - rewrite list_elem_of_filter. tauto.
Qed.

Lemma NoDup_toggleIn (l : string) (b : bool) (stored : list string) :
  NoDup stored -> NoDup (toggleIn l b stored).
Proof.
  intros Hnd. unfold toggleIn. destruct b; simpl.
  - destruct (bool_decide (l ∈ stored)) eqn:Hin; simpl; [exact Hnd|].
    apply bool_decide_eq_false in Hin.
    apply NoDup_app. split; [exact Hnd|]. split.
    + intros x Hx Hx'. apply list_elem_of_singleton in Hx'. subst x.
      contradiction.
    + apply NoDup_singleton.
  - apply NoDup_filter. exact Hnd.
Qed.

Lemma isChapterCompleted_storedIds cId collection x :
  isChapterCompleted (find cId collection) x
  = bool_decide (x ∈ storedIds cId collection).
Proof.
  unfold isChapterCompleted, storedIds.
  destruct (find cId collection); [reflexivity|].
  symmetry. apply bool_decide_eq_false. apply not_elem_of_nil.
Qed.

Lemma storedIds_updateProgress_same cId l b collection :
  storedIds cId (updateProgress cId l b collection)
  = toggleIn l b (storedIds cId collection).
Proof.
  unfold storedIds at 1. rewrite find_updateProgress_same. reflexivity.
Qed.

Lemma storedIds_updateProgress_other cId cId' l b collection :
  cId' ≠ cId ->
  storedIds cId' (updateProgress cId l b collection)
  = storedIds cId' collection.
Proof.
  intros Hne. unfold storedIds.
  rewrite find_updateProgress_other by exact Hne. reflexivity.
Qed.

Lemma storedIds_clickLeaf cId l collection :
  storedIds cId (clickLeaf cId l collection)
  = toggleIn l (negb (bool_decide (l ∈ storedIds cId collection)))
      (storedIds cId collection).
Proof.
  unfold clickLeaf, handleToggleCompletion.
  rewrite storedIds_updateProgress_same, isChapterCompleted_storedIds.
  reflexivity.
Qed.

Lemma filter_out_length (l : string) (stored : list string) :
  NoDup stored -> l ∈ stored ->
  S (length (filter (λ id, id ≠ l) stored)) = length stored.
Proof.
  induction stored as [|x xs IH]; intros Hnd Hin.
  - inversion Hin.
  - apply NoDup_cons in Hnd as [Hx Hnd]. rewrite filter_cons.
    destruct (decide (x ≠ l)) as [Hne|Heq].
    + simpl. f_equal. apply IH; [exact Hnd|].
      apply elem_of_cons in Hin as [->|Hin]; [contradiction | exact Hin].
    + assert (x = l) as -> by (destruct (decide (x = l)); tauto).
      simpl. f_equal.
      assert (Hall : Forall (λ id, id ≠ l) xs).
      { apply Forall_forall. intros y Hy ->. contradiction. }
      apply (filter_length_all (λ id, id ≠ l) xs). exact Hall.
Qed.

Lemma filter_out_absent (l : string) (stored : list string) :
  l ∉ stored -> filter (λ id, id ≠ l) stored = stored.
Proof.
  induction stored as [|x xs IH]; intros Hout; [reflexivity|].
  rewrite filter_cons, decide_True.
  - f_equal. apply IH. intros Hin. apply Hout. right. exact Hin.
  - intros ->. apply Hout. left.
Qed.

(** X1. A toggle reads back: after [updateProgress(c, l, b)] the leaf [l]
    of course [c] is shown completed exactly when [b] is true, every other
    leaf of [c] is shown as before, and so is every leaf of every other
    course. *)
Theorem toggle_reads_back :
  forall (cId l : string) (b : bool) (collection : list ProgressEntry),
    let after := updateProgress cId l b collection in
    isChapterCompleted (find cId after) l = b
    /\ (forall l', l' ≠ l ->
          isChapterCompleted (find cId after) l'
          = isChapterCompleted (find cId collection) l')
    /\ (forall cId' x, cId' ≠ cId ->
          isChapterCompleted (find cId' after) x
          = isChapterCompleted (find cId' collection) x).
Proof.
  intros cId l b collection after. subst after. split; [|split].
  - rewrite isChapterCompleted_storedIds, storedIds_updateProgress_same.
    destruct b.
    + apply bool_decide_eq_true. apply elem_of_toggleIn. left. reflexivity.
    + apply bool_decide_eq_false. rewrite elem_of_toggleIn. tauto.
  - intros l' Hne.
    rewrite !isChapterCompleted_storedIds, storedIds_updateProgress_same.
    apply bool_decide_ext. rewrite elem_of_toggleIn. destruct b; tauto.
  - intros cId' x Hne.
    rewrite !isChapterCompleted_storedIds.
    rewrite storedIds_updateProgress_other by exact Hne. reflexivity.
Qed.

Lemma toggle_reads_back_witness :
  "mm-2" ≠ "mm-1"
  /\ isChapterCompleted
       (find "mm" (updateProgress "mm" "mm-1" false
                     [ {| courseId := "mm";
                          completedModules := ["mm-1"; "mm-2"] |} ])) "mm-2"
     = true.
Proof.
  split; [discriminate|].
  rewrite (proj1 (proj2 (toggle_reads_back "mm" "mm-1" false
             [ {| courseId := "mm"; completedModules := ["mm-1"; "mm-2"] |} ]))
             "mm-2"); [reflexivity | discriminate].
Defined.

(** X2. Toggles keep the collection well formed: when the course IDs of
    the entries are distinct and no entry stores an ID twice, the same
    holds after any run of toggles; so it holds for every collection
    built from the empty one. *)
Theorem toggles_keep_wellFormed :
  forall (ts : list toggle) (collection : list ProgressEntry),
    NoDup (courseId <$> collection) ->
    Forall (λ p, NoDup (completedModules p)) collection ->
    NoDup (courseId <$> applyToggles ts collection)
    /\ Forall (λ p, NoDup (completedModules p)) (applyToggles ts collection).
Proof.
  assert (Hstep : forall cId l b collection,
    NoDup (courseId <$> collection) ->
    Forall (λ p, NoDup (completedModules p)) collection ->
    NoDup (courseId <$> updateProgress cId l b collection)
    /\ Forall (λ p, NoDup (completedModules p))
         (updateProgress cId l b collection)).
  { intros cId l b collection Hids Hlists. split.
    - rewrite updateProgress_courseIds.
      destruct (find cId collection) eqn:Hfind;
        [rewrite app_nil_r; exact Hids|].
      apply NoDup_app. split; [exact Hids|]. split; [|apply NoDup_singleton].
      intros x Hx Hx'. apply list_elem_of_singleton in Hx'. subst x.
      apply find_None_absent in Hfind.
      apply list_elem_of_fmap in Hx as (p & Hp & Hin).
      rewrite Forall_forall in Hfind. apply (Hfind p Hin). symmetry. exact Hp.
    - clear Hids. induction collection as [|e rest IH].
      + rewrite updateProgress_nil. constructor; [|constructor].
        simpl. destruct b; [apply NoDup_singleton | apply NoDup_nil_2].
      + apply Forall_cons in Hlists as [He Hrest].
        destruct (decide (courseId e = cId)) as [Hhit|Hmiss].
        * rewrite updateProgress_hit by exact Hhit.
          constructor; [|exact Hrest]. simpl. apply NoDup_toggleIn, He.
        * rewrite updateProgress_miss by exact Hmiss.
          constructor; [exact He | apply IH, Hrest]. }
  intros ts. induction ts as [|[[c m] b] ts IH]; intros collection Hids Hlists.
  - split; assumption.
  - simpl. destruct (Hstep c m b collection Hids Hlists) as [H1 H2].
    apply IH; assumption.
Qed.

Lemma toggles_keep_wellFormed_witness :
  NoDup (courseId <$>
           applyToggles [("mm", "mm-1", true); ("sd", "sd-1", true);
                         ("mm", "mm-1", true)] []).
Proof.
  apply (proj1 (toggles_keep_wellFormed
                  [("mm", "mm-1", true); ("sd", "sd-1", true);
                   ("mm", "mm-1", true)] []
                  (NoDup_nil_2 (A := string)) (Forall_nil_2 _))).
Defined.

(** X3. A click on the button of a leaf changes the completed count of
    the course by exactly one: up by one when the leaf was shown
    incomplete, down by one when it was shown completed and the stored
    list has no duplicates. *)
Theorem click_changes_count_by_one :
  forall (cId l : string) (collection : list ProgressEntry),
    let before := completedCount (find cId collection) in
    let after := completedCount (find cId (clickLeaf cId l collection)) in
    (isChapterCompleted (find cId collection) l = false -> after = S before)
    /\ (isChapterCompleted (find cId collection) l = true ->
        NoDup (storedIds cId collection) -> S after = before).
Proof.
  intros cId l collection before after. subst before after.
  rewrite !completedCount_storedIds, storedIds_clickLeaf.
  rewrite isChapterCompleted_storedIds. split.
  - intros Hshown. rewrite Hshown. unfold toggleIn. simpl.
    rewrite Hshown. simpl. rewrite length_app. simpl. lia.
  - intros Hshown Hnd. rewrite Hshown. unfold toggleIn. simpl.
    apply filter_out_length; [exact Hnd|].
    apply bool_decide_eq_true in Hshown. exact Hshown.
Qed.

Lemma click_changes_count_by_one_witness :
  let collection :=
    [ {| courseId := "mm"; completedModules := ["mm-1"; "mm-2"] |} ] in
  isChapterCompleted (find "mm" collection) "mm-1" = true
  /\ NoDup (storedIds "mm" collection)
  /\ S (completedCount (find "mm" (clickLeaf "mm" "mm-1" collection)))
     = completedCount (find "mm" collection).
Proof.
  intros collection.
  assert (Hnd : NoDup (storedIds "mm" collection))
    by (apply (bool_decide_unpack _); reflexivity).
  split; [reflexivity|]. split; [exact Hnd|].
  exact (proj2 (click_changes_count_by_one "mm" "mm-1" collection)
           eq_refl Hnd).
Defined.

(** X4. Two clicks on the same button undo each other for the view:
    every leaf of the course is shown as before.  When the course has an
    entry and the leaf was not stored, the collection itself is the one
    before the two clicks. *)
Theorem double_click_restores :
  forall (cId l : string) (collection : list ProgressEntry),
    let after := clickLeaf cId l (clickLeaf cId l collection) in
    (forall x, isChapterCompleted (find cId after) x
               = isChapterCompleted (find cId collection) x)
    /\ (hasEntry cId collection -> l ∉ storedIds cId collection ->
        after = collection).
Proof.
  intros cId l collection after. subst after. split.
  - intros x. rewrite !isChapterCompleted_storedIds. apply bool_decide_ext.
    rewrite !storedIds_clickLeaf.
    destruct (bool_decide (l ∈ storedIds cId collection)) eqn:Hin; simpl.
    + apply bool_decide_eq_true in Hin.
      rewrite bool_decide_false by (rewrite elem_of_toggleIn; tauto).
      simpl. rewrite !elem_of_toggleIn.
      destruct (decide (x = l)) as [->|Hne]; tauto.
    + apply bool_decide_eq_false in Hin.
      rewrite bool_decide_true
        by (rewrite elem_of_toggleIn; left; reflexivity).
      simpl. rewrite !elem_of_toggleIn.
      destruct (decide (x = l)) as [->|Hne]; tauto.
  - intros Hhas Hout. unfold clickLeaf at 1.
    rewrite isChapterCompleted_storedIds, storedIds_clickLeaf.
    rewrite (bool_decide_false _ Hout). simpl.
    rewrite bool_decide_true by (rewrite elem_of_toggleIn; left; reflexivity).
    simpl. unfold clickLeaf, handleToggleCompletion.
    rewrite isChapterCompleted_storedIds, (bool_decide_false _ Hout). simpl.
    unfold hasEntry, storedIds in *. clear -Hhas Hout.
    induction collection as [|e rest IH].
    + destruct Hhas as [p Hp]. discriminate.
    + destruct (decide (courseId e = cId)) as [Hhit|Hmiss].
      * rewrite find_hit in Hout by exact Hhit.
        rewrite updateProgress_hit by exact Hhit.
        rewrite updateProgress_hit by exact Hhit. simpl.
        rewrite toggleIn_off_on, (filter_out_absent _ _ Hout).
        destruct e; reflexivity.
      * rewrite find_miss in Hout, Hhas by exact Hmiss.
        rewrite updateProgress_miss by exact Hmiss.
        rewrite updateProgress_miss by exact Hmiss.
        f_equal. apply IH; assumption.
Qed.

Lemma double_click_restores_witness :
  let collection :=
    [ {| courseId := "sd"; completedModules := [] |};
      {| courseId := "mm"; completedModules := ["mm-2"] |} ] in
  hasEntry "mm" collection
  /\ ("mm-1" ∉ storedIds "mm" collection)
  /\ clickLeaf "mm" "mm-1" (clickLeaf "mm" "mm-1" collection) = collection.
Proof.
  intros collection.
  assert (Hhas : hasEntry "mm" collection) by (eexists; reflexivity).
  assert (Hout : "mm-1" ∉ storedIds "mm" collection)
    by (apply (bool_decide_unpack _); reflexivity).
  split; [exact Hhas|]. split; [exact Hout|].
  exact (proj2 (double_click_restores "mm" "mm-1" collection) Hhas Hout).
Defined.

End DetailView.

(** ** Module headers and the dashboard count of [src/app/page.tsx] *)

Section ModulesAndDashboard.

Import Progress Detail.

Lemma filter_all_length {A} (f : A -> bool) (l : list A) :
  (length (List.filter f l) =? length l) = forallb f l.
Proof.
  induction l as [|x l IH]; [reflexivity|].
  simpl. destruct (f x); simpl; [exact IH|].
  apply Nat.eqb_neq. pose proof (List.filter_length_le f l). lia.
Qed.

Lemma filter_bool_le {A} (f : A -> bool) (l : list A) :
  length (List.filter f l) <= length l.
Proof. apply List.filter_length_le. Qed.

Lemma forallb_elem_of {A} (f : A -> bool) (l : list A) :
  forallb f l = true <-> forall x, x ∈ l -> f x = true.
Proof.
  rewrite forallb_forall. split; intros H x Hx; apply H;
    apply list_elem_of_In; exact Hx.
Qed.

Lemma filter_bool_ext {A} (f g : A -> bool) (l : list A) :
  (forall x, f x = g x) -> List.filter f l = List.filter g l.
Proof.
  intros Hfg. induction l as [|x l IH]; [reflexivity|].
  simpl. rewrite Hfg, IH. reflexivity.
Qed.

Lemma isModuleCompleted_every module progress :
  isModuleCompleted module progress
  = forallb (isChapterCompleted progress)
      (ChapterVariant.moduleChapterIds module).
Proof.
  unfold isModuleCompleted, moduleCompletedChapters,
    ChapterVariant.moduleChapterIds.
  rewrite filter_all_length.
  induction (ChapterVariant.chapters module) as [|c cs IH]; [reflexivity|].
  rewrite fmap_cons. simpl. rewrite IH. reflexivity.
Qed.

(** X5. The two ways the detail view decides that a module is complete
    agree: the header's count test
    [moduleCompletedChapters === moduleTotalChapters] is the [every] test
    of [completedModulesCount], and it holds exactly when every chapter
    ID of the module is stored (so a module without chapters is
    complete); the count in the heading is the number of modules whose
    header is complete, at most the number of modules. *)
Theorem module_completion_tests_agree :
  forall (course : ChapterVariant.SAPCourse) (progress : option ProgressEntry),
    (forall module,
        isModuleCompleted module progress
        = forallb (isChapterCompleted progress)
            (ChapterVariant.moduleChapterIds module))
    /\ (forall module,
          isModuleCompleted module progress = true <->
          forall x, x ∈ ChapterVariant.moduleChapterIds module ->
                    isChapterCompleted progress x = true)
    /\ completedModulesCount course progress
       = length (List.filter (λ module, isModuleCompleted module progress)
                   (ChapterVariant.modules course))
    /\ completedModulesCount course progress
       <= length (ChapterVariant.modules course).
Proof.
  intros course progress. split; [|split; [|split]].
  - intros module. apply isModuleCompleted_every.
  - intros module. rewrite isModuleCompleted_every. apply forallb_elem_of.
  - unfold completedModulesCount. f_equal. apply filter_bool_ext.
    intros module. symmetry. apply isModuleCompleted_every.
  - apply filter_bool_le.
Qed.

Lemma module_completion_tests_agree_witness :
  let progress :=
    Some {| courseId := "mm"; completedModules := ["mm-c1.2"; "mm-c1.1"] |} in
  match ChapterVariant.modules ChapterVariant.SAP_MM with
  | first :: _ =>
      (forall x, x ∈ ChapterVariant.moduleChapterIds first ->
                 isChapterCompleted progress x = true)
      /\ isModuleCompleted first progress = true
  | [] => False
  end.
Proof.
  intros progress. simpl.
  match goal with |- (forall x, x ∈ ?ids -> _) /\ isModuleCompleted ?m _ = _ =>
    assert (Hall : forall x, x ∈ ids -> isChapterCompleted progress x = true);
    [ apply Forall_forall; apply (bool_decide_unpack _); reflexivity
    | split; [exact Hall|];
      exact (proj2 (proj1 (proj2 (module_completion_tests_agree
                                    ChapterVariant.SAP_MM progress)) m) Hall) ]
  end.
Defined.

Lemma all_leaves_by_module (course : ChapterVariant.SAPCourse)
    (progress : option ProgressEntry) :
  (forall x, x ∈ ChapterVariant.leafIds course ->
             isChapterCompleted progress x = true)
  <-> completedModulesCount course progress
      = length (ChapterVariant.modules course).
Proof.
  unfold completedModulesCount, ChapterVariant.leafIds.
  rewrite <- Nat.eqb_eq, filter_all_length, forallb_elem_of. split.
  - intros Hall module Hm. apply forallb_elem_of. intros x Hx.
    apply Hall. apply list_elem_of_bind. exists module. split; assumption.
  - intros Hall x Hx. apply list_elem_of_bind in Hx as (module & Hx & Hm).
    specialize (Hall module Hm). rewrite forallb_elem_of in Hall.
    apply Hall. exact Hx.
Qed.

(** X6. For a course whose chapter IDs are distinct and a collection
    whose stored IDs for the course are distinct chapter IDs of it, the
    course is shown as completed ("Certified!") exactly when it has a
    chapter and every module is counted as completed in the heading. *)
Theorem certified_iff_all_modules :
  forall (course : ChapterVariant.SAPCourse) (collection : list ProgressEntry),
    let progress := ChapterVariant.cardProgress course collection in
    let stored := storedIds (ChapterVariant.id course) collection in
    NoDup stored -> NoDup (ChapterVariant.leafIds course) ->
    (forall x, x ∈ stored -> x ∈ ChapterVariant.leafIds course) ->
    ChapterVariant.isCompleted course progress = true <->
    0 < ChapterVariant.getTotalChapters course
    /\ completedModulesCount course progress
       = length (ChapterVariant.modules course).
Proof.
  intros course collection progress stored Hs Hl Hsub.
  rewrite <- all_leaves_by_module. subst progress.
  unfold ChapterVariant.isCompleted, ChapterVariant.cardProgress.
  rewrite completedCount_storedIds, andb_true_iff, Nat.eqb_eq, Nat.ltb_lt.
  fold stored. rewrite getTotalChapters_leafIds.
  rewrite (stored_all_leaves stored _ Hs Hl Hsub).
  assert (Hread : forall x,
    isChapterCompleted (find (ChapterVariant.id course) collection) x = true
    <-> x ∈ stored).
  { intros x. rewrite isChapterCompleted_storedIds.
    apply bool_decide_eq_true. }
  split.
  - intros [Hall Hpos]. split; [exact Hpos|].
    intros x Hx. apply Hread, Hall, Hx.
  - intros [Hpos Hall]. split; [|exact Hpos].
    intros x Hx. apply Hread, Hall, Hx.
Qed.

Lemma certified_iff_all_modules_witness :
  let course := ChapterVariant.SAP_MM in
  let collection :=
    [ {| courseId := "mm";
         completedModules := ChapterVariant.leafIds ChapterVariant.SAP_MM |} ] in
  NoDup (storedIds "mm" collection)
  /\ (forall x, x ∈ storedIds "mm" collection ->
                x ∈ ChapterVariant.leafIds course)
  /\ completedModulesCount course (ChapterVariant.cardProgress course collection)
     = 5.
Proof.
  intros course collection.
  assert (Hs : NoDup (storedIds "mm" collection))
    by (apply (bool_decide_unpack _); reflexivity).
  assert (Hsub : forall x, x ∈ storedIds "mm" collection ->
                           x ∈ ChapterVariant.leafIds course)
    by (intros x Hx; exact Hx).
  split; [exact Hs|]. split; [exact Hsub|].
  exact (proj2 (proj1 (certified_iff_all_modules course collection Hs Hs Hsub)
                  eq_refl)).
Defined.

(** Finding by key in a list whose keys are distinct. *)
Lemma list_find_key {A} (key : A -> string) (l : list A) (k : string) (x : A) :
  NoDup (key <$> l) -> x ∈ l -> key x = k ->
  snd <$> list_find (λ y, key y = k) l = Some x.
Proof.
  induction l as [|y l IH]; intros Hnd Hin Hk.
  - inversion Hin.
  - rewrite fmap_cons in Hnd. apply NoDup_cons in Hnd as [Hy Hnd]. simpl.
    apply elem_of_cons in Hin as [->|Hin].
    + rewrite decide_True by exact Hk. reflexivity.
    + destruct (decide (key y = k)) as [Hyk|Hyk].
      * exfalso. apply Hy. apply list_elem_of_fmap. exists x.
        split; [congruence | exact Hin].
      * specialize (IH Hnd Hin Hk).
        destruct (list_find (λ y0, key y0 = k) l) as [[i z]|];
          [exact IH | discriminate].
Qed.

Lemma list_find_key_inv {A} (key : A -> string) (l : list A) (k : string) (x : A) :
  snd <$> list_find (λ y, key y = k) l = Some x -> x ∈ l /\ key x = k.
Proof.
  destruct (list_find (λ y, key y = k) l) as [[i z]|] eqn:Hfind;
    [|discriminate].
  intros [= <-]. apply list_find_Some in Hfind as (Hi & Hk & _).
  split; [|exact Hk]. apply list_elem_of_lookup. exists i. exact Hi.
Qed.

Lemma elem_of_filter_bool {A} (f : A -> bool) (l : list A) (x : A) :
  x ∈ List.filter f l <-> x ∈ l /\ f x = true.
Proof. rewrite !list_elem_of_In. apply List.filter_In. Qed.

Lemma NoDup_fmap_filter_bool {A} (key : A -> string) (f : A -> bool)
    (l : list A) :
  NoDup (key <$> l) -> NoDup (key <$> List.filter f l).
Proof.
  induction l as [|x l IH]; intros Hnd; [exact Hnd|].
  rewrite fmap_cons in Hnd. apply NoDup_cons in Hnd as [Hx Hnd]. simpl.
  destruct (f x); [|apply IH, Hnd].
  rewrite fmap_cons. apply NoDup_cons. split; [|apply IH, Hnd].
  intros Hin. apply Hx. apply list_elem_of_fmap in Hin as (y & Hy & Hin).
  apply list_elem_of_fmap. exists y. split; [exact Hy|].
  apply elem_of_filter_bool in Hin. tauto.
Qed.

(** X7. The dashboard counts entries, at most as many as the collection
    has. When the course IDs of the entries are distinct the count is at
    most the number of courses of the catalog, and the overall percentage
    lies between 0 and 100. *)
Theorem completedCourses_bounds :
  forall (catalog : list ChapterVariant.SAPCourse)
         (progress : list ProgressEntry),
    Dashboard.completedCourses catalog progress <= length progress
    /\ (0 <= Dashboard.completionRatio catalog progress)%Q
    /\ (NoDup (courseId <$> progress) ->
        Dashboard.completedCourses catalog progress <= length catalog
        /\ (Dashboard.completionRatio catalog progress <= 100)%Q).
Proof.
  intros catalog progress.
  assert (Hnonneg : (0 <= Dashboard.completionRatio catalog progress)%Q).
  { unfold Dashboard.completionRatio.
    destruct (length catalog) as [|n]; [discriminate|].
    change (0 <? S n) with true. cbv iota.
    apply (percent_bounds _ (S n)). lia. }
  split; [apply filter_bool_le|]. split; [exact Hnonneg|].
  intros Hnd.
  assert (Hle : Dashboard.completedCourses catalog progress <= length catalog).
  { unfold Dashboard.completedCourses.
    rewrite <- (length_fmap courseId),
            <- (length_fmap ChapterVariant.id catalog).
    apply stored_le_leaves.
    - apply NoDup_fmap_filter_bool, Hnd.
    - intros x Hx. apply list_elem_of_fmap in Hx as (p & -> & Hp).
      apply elem_of_filter_bool in Hp as [_ Hp].
      unfold Dashboard.countsAsCompleted in Hp.
      destruct (Dashboard.findCourse catalog (courseId p)) as [course|] eqn:Hc;
        [|discriminate].
      apply list_find_key_inv in Hc as [Hin Hid].
      apply list_elem_of_fmap. exists course. split; [congruence | exact Hin]. }
  split; [exact Hle|].
  unfold Dashboard.completionRatio.
  destruct (length catalog) as [|n]; [discriminate|].
  change (0 <? S n) with true. cbv iota.
  apply (percent_bounds _ (S n)); [lia | exact Hle].
Qed.

Lemma completedCourses_bounds_witness :
  let progress :=
    [ {| courseId := "mm";
         completedModules := ChapterVariant.leafIds ChapterVariant.SAP_MM |} ] in
  NoDup (courseId <$> progress)
  /\ Dashboard.completedCourses [ChapterVariant.SAP_MM] progress <= 1.
Proof.
  intros progress.
  assert (Hnd : NoDup (courseId <$> progress))
    by (apply (bool_decide_unpack _); reflexivity).
  split; [exact Hnd|].
  exact (proj1 (proj2 (proj2 (completedCourses_bounds
                                [ChapterVariant.SAP_MM] progress)) Hnd)).
Defined.

(** X8. When the course IDs of the catalog are distinct and the course
    IDs of the entries are distinct, the dashboard's count of completed
    courses is the number of course cards shown as completed. *)
Theorem dashboard_agrees_with_cards :
  forall (catalog : list ChapterVariant.SAPCourse)
         (progress : list ProgressEntry),
    NoDup (ChapterVariant.id <$> catalog) ->
    NoDup (courseId <$> progress) ->
    Dashboard.completedCourses catalog progress
    = length (List.filter
                (λ course,
                   ChapterVariant.isCompleted course
                     (ChapterVariant.cardProgress course progress))
                catalog).
Proof.
  intros catalog progress Hcat Hprog.
  unfold Dashboard.completedCourses.
  rewrite <- (length_fmap courseId).
  rewrite <- (length_fmap ChapterVariant.id (List.filter _ catalog)).
  apply Permutation_length, NoDup_Permutation.
  - apply NoDup_fmap_filter_bool, Hprog.
  - apply NoDup_fmap_filter_bool, Hcat.
  - intros x. rewrite !list_elem_of_fmap. split.
    + intros (p & -> & Hp). apply elem_of_filter_bool in Hp as [Hin Hp].
      unfold Dashboard.countsAsCompleted in Hp.
      destruct (Dashboard.findCourse catalog (courseId p)) as [course|] eqn:Hc;
        [|discriminate].
      apply list_find_key_inv in Hc as [Hcin Hid].
      exists course. split; [congruence|].
      apply elem_of_filter_bool. split; [exact Hcin|].
      unfold ChapterVariant.isCompleted, ChapterVariant.cardProgress, find,
        findEntry.
      rewrite (list_find_key courseId progress _ p Hprog Hin (eq_sym Hid)).
      simpl. rewrite andb_comm. exact Hp.
    + intros (course & -> & Hc). apply elem_of_filter_bool in Hc as [Hcin Hc].
      unfold ChapterVariant.isCompleted, ChapterVariant.cardProgress in Hc.
      apply andb_true_iff in Hc as [Hcount Hpos].
      destruct (find (ChapterVariant.id course) progress) as [p|] eqn:Hp.
      * apply list_find_key_inv in Hp as [Hin Hid].
        exists p. split; [congruence|].
        apply elem_of_filter_bool. split; [exact Hin|].
        unfold Dashboard.countsAsCompleted, Dashboard.findCourse.
        rewrite (list_find_key ChapterVariant.id catalog _ course Hcat Hcin
                   (eq_sym Hid)).
        simpl in *. rewrite Hpos, Hcount. reflexivity.
      * apply Nat.eqb_eq in Hcount. apply Nat.ltb_lt in Hpos.
        simpl in Hcount. lia.
Qed.

Lemma dashboard_agrees_with_cards_witness :
  let progress :=
    [ {| courseId := "mm";
         completedModules := ChapterVariant.leafIds ChapterVariant.SAP_MM |} ] in
  Dashboard.completedCourses [ChapterVariant.SAP_MM] progress = 1.
Proof.
  intros progress.
  rewrite (dashboard_agrees_with_cards [ChapterVariant.SAP_MM] progress).
  - reflexivity.
  - apply (bool_decide_unpack _). reflexivity.
  - apply (bool_decide_unpack _). reflexivity.
Defined.

End ModulesAndDashboard.

(** ** Every run of the request wrapper *)

Section EveryRun.

Import Request Attempt.

Variable Json : Type.
Variable errorMessage : Json -> result Exn string.
Variable fetch : nat -> FetchResult Json.
Variable random : nat -> Q.

#[local] Abbreviation attempts := (attempts Json errorMessage fetch random).
#[local] Abbreviation run :=
  (fetchWithExponentialBackoff Json errorMessage fetch random).
#[local] Abbreviation backoff := (backoff random).
#[local] Abbreviation afterFetch w := (snd (doFetch Json fetch w)).
#[local] Abbreviation successOf := (successOf Json).
#[local] Abbreviation failureOf := (failureOf Json errorMessage).
#[local] Abbreviation retried := (retried random).
#[local] Abbreviation expectedTrace := (expectedTrace random).

Lemma attempts_returns maxRetries remaining i w data :
  successOf (fetch (fetches w)) = Some data ->
  attempts maxRetries (S remaining) i w = (Return data, afterFetch w).
Proof.
  intros Hs. simpl. destruct (fetch (fetches w)) as [error|response];
    [discriminate|].
  simpl in Hs. destruct (ok Json response); [|discriminate].
  simpl. rewrite Hs. reflexivity.
Qed.

Lemma attempts_retries maxRetries remaining i w :
  successOf (fetch (fetches w)) = None -> i ≠ maxRetries - 1 ->
  attempts maxRetries (S remaining) i w =
  attempts maxRetries remaining (S i) (backoff i (afterFetch w)).
Proof.
  intros Hs Hi. simpl.
  assert (Hne : (i =? maxRetries - 1) = false) by (apply Nat.eqb_neq; exact Hi).
  destruct (fetch (fetches w)) as [error|response];
    [rewrite Hne; reflexivity|].
  simpl in Hs. destruct (ok Json response); simpl.
  - rewrite Hs, Hne. reflexivity.
  - destruct (json Json response); [|rewrite Hne; reflexivity].
    destruct ((status Json response =? 429) && (i <? maxRetries - 1));
      [|rewrite Hne]; reflexivity.
Qed.

Lemma attempts_gives_up maxRetries remaining i w :
  successOf (fetch (fetches w)) = None -> i = maxRetries - 1 ->
  attempts maxRetries (S remaining) i w =
  (Throw (failureOf (fetch (fetches w))), afterFetch w).
Proof.
  intros Hs Hi. simpl.
  assert (He : (i =? maxRetries - 1) = true) by (apply Nat.eqb_eq; exact Hi).
  assert (Hlt : (i <? maxRetries - 1) = false) by (apply Nat.ltb_ge; lia).
  destruct (fetch (fetches w)) as [error|response];
    [rewrite He; reflexivity|].
  simpl in Hs. simpl. destruct (ok Json response); simpl.
  - rewrite Hs, He. reflexivity.
  - destruct (json Json response); [|rewrite He; reflexivity].
    rewrite Hlt, andb_false_r, He. reflexivity.
Qed.

Lemma retried_S (k : nat) :
  retried 0 (S k) =
  retried 0 k ++ [Fetched k; Slept (delayOf k (random k))].
Proof.
  unfold Attempt.retried. rewrite seq_S, bind_app. reflexivity.
Qed.

(** After [k] failed attempts the loop is at iteration [k]. *)
Lemma run_after_failures (maxRetries k remaining : nat) :
  (forall j, j < k -> successOf (fetch j) = None) ->
  k + remaining = maxRetries -> 1 <= remaining ->
  run maxRetries =
  attempts maxRetries remaining k
    {| fetches := k; randoms := k; trace := retried 0 k |}.
Proof.
  revert remaining. induction k as [|k IH]; intros remaining Hfail Hsum Hrem.
  - simpl in Hsum. subst remaining. reflexivity.
  - rewrite (IH (S remaining)); [| intros j Hj; apply Hfail; lia | lia | lia].
    rewrite attempts_retries; [| apply Hfail; simpl; lia | lia].
    f_equal. unfold Request.backoff. simpl. f_equal.
    rewrite retried_S, <- app_assoc. reflexivity.
Qed.

Lemma run_first_success (maxRetries k : nat) (data : Json) :
  k < maxRetries ->
  (forall j, j < k -> successOf (fetch j) = None) ->
  successOf (fetch k) = Some data ->
  run maxRetries =
  (Return data,
   {| fetches := S k; randoms := k; trace := expectedTrace (S k) |}).
Proof.
  intros Hk Hfail Hsucc.
  destruct (maxRetries - k) as [|remaining] eqn:Hrem; [lia|].
  rewrite (run_after_failures maxRetries k (S remaining) Hfail); [|lia|lia].
  rewrite (attempts_returns _ _ _ _ data); [reflexivity | exact Hsucc].
Qed.

Lemma run_all_failed (maxRetries : nat) :
  1 <= maxRetries ->
  (forall j, j < maxRetries -> successOf (fetch j) = None) ->
  run maxRetries =
  (Throw (failureOf (fetch (maxRetries - 1))),
   {| fetches := maxRetries; randoms := maxRetries - 1;
      trace := expectedTrace maxRetries |}).
Proof.
  intros Hm Hfail. destruct maxRetries as [|k]; [lia|].
  rewrite (run_after_failures (S k) k 1); [| intros j Hj; apply Hfail; lia
                                          | lia | lia].
  rewrite attempts_gives_up; [| apply Hfail; simpl; lia | simpl; lia].
  simpl. rewrite Nat.sub_0_r. reflexivity.
Qed.

(** Either no attempt below the bound succeeds, or there is a first one
    that does. *)
Lemma first_success_or_none (bound : nat) :
  (forall j, j < bound -> successOf (fetch j) = None)
  \/ exists k data, k < bound /\ successOf (fetch k) = Some data
                    /\ forall j, j < k -> successOf (fetch j) = None.
Proof.
  induction bound as [|bound IH].
  - left. intros j Hj. lia.
  - destruct IH as [Hnone|(k & data & Hk & Hs & Hbefore)].
    + destruct (successOf (fetch bound)) as [data|] eqn:Hs.
      * right. exists bound, data. split; [lia|]. split; [exact Hs|].
        exact Hnone.
      * left. intros j Hj. destruct (decide (j = bound)) as [->|Hne];
          [exact Hs | apply Hnone; lia].
    + right. exists k, data. split; [lia|]. split; assumption.
Qed.

Lemma delays_retried (k : nat) :
  delays (retried 0 k) = (λ j, delayOf j (random j)) <$> seq 0 k.
Proof.
  induction k as [|k IH]; [reflexivity|].
  rewrite retried_S, seq_S, fmap_app. unfold delays in *.
  rewrite bind_app, IH. reflexivity.
Qed.

Lemma fetchCalls_retried (k : nat) :
  fetchCalls (retried 0 k) = seq 0 k.
Proof.
  induction k as [|k IH]; [reflexivity|].
  rewrite retried_S, seq_S. unfold fetchCalls in *.
  rewrite bind_app, IH. reflexivity.
Qed.

Lemma expectedTrace_calls (k : nat) :
  fetchCalls (expectedTrace k) = seq 0 k
  /\ delays (expectedTrace k) = (λ j, delayOf j (random j)) <$> seq 0 (k - 1).
Proof.
  destruct k as [|k]; [split; reflexivity|].
  unfold Attempt.expectedTrace. split.
  - unfold fetchCalls. rewrite bind_app. fold (fetchCalls (retried 0 k)).
    rewrite fetchCalls_retried, seq_S. reflexivity.
  - unfold delays. rewrite bind_app. fold (delays (retried 0 k)).
    rewrite delays_retried. simpl. rewrite Nat.sub_0_r, app_nil_r.
    reflexivity.
Qed.

(** X9. The wrapper returns the body of the first answer that is a
    success with a JSON body, whatever failed before it, as long as that
    answer comes within [maxRetries] attempts; it has then fetched once
    per attempt and slept once between two attempts, for
    [2^j * 1000 + random * 1000] after attempt [j]. *)
Theorem first_success_is_returned :
  forall (maxRetries k : nat) (data : Json),
    k < maxRetries ->
    (forall j, j < k -> successOf (fetch j) = None) ->
    successOf (fetch k) = Some data ->
    fst (run maxRetries) = Return data
    /\ fetchCalls (trace (snd (run maxRetries))) = seq 0 (S k)
    /\ delays (trace (snd (run maxRetries)))
       = (λ j, delayOf j (random j)) <$> seq 0 k.
Proof.
  intros maxRetries k data Hk Hfail Hsucc.
  rewrite (run_first_success maxRetries k data Hk Hfail Hsucc).
  cbn [fst snd trace].
  destruct (expectedTrace_calls (S k)) as [Hc Hd].
  rewrite Hc, Hd. simpl. rewrite Nat.sub_0_r. split; [|split]; reflexivity.
Qed.

(** X10. When none of the [maxRetries] (at least one) answers is a
    success with a JSON body, the wrapper fetches [maxRetries] times,
    sleeps between the attempts and not after the last one, and throws
    what the last attempt failed with: the earlier failures are lost, and
    the loop's closing [throw] is not reached. *)
Theorem last_failure_is_thrown :
  forall (maxRetries : nat),
    1 <= maxRetries ->
    (forall j, j < maxRetries -> successOf (fetch j) = None) ->
    fst (run maxRetries) = Throw (failureOf (fetch (maxRetries - 1)))
    /\ fetchCalls (trace (snd (run maxRetries))) = seq 0 maxRetries
    /\ delays (trace (snd (run maxRetries)))
       = (λ j, delayOf j (random j)) <$> seq 0 (maxRetries - 1).
Proof.
  intros maxRetries Hm Hfail.
  rewrite (run_all_failed maxRetries Hm Hfail). cbn [fst snd trace].
  destruct (expectedTrace_calls maxRetries) as [Hc Hd].
  rewrite Hc, Hd. split; [|split]; reflexivity.
Qed.

(** Every run is a run of [k] attempts, for some [k] within the budget. *)
Lemma run_shape (maxRetries : nat) :
  exists k,
    k <= maxRetries /\ (1 <= maxRetries -> 1 <= k)
    /\ trace (snd (run maxRetries)) = expectedTrace k.
Proof.
  destruct maxRetries as [|m].
  - exists 0. repeat split; try reflexivity; lia.
  - destruct (first_success_or_none (S m))
      as [Hnone|(k & data & Hk & Hs & Hbefore)].
    + exists (S m). rewrite (run_all_failed (S m)); [|lia|exact Hnone].
      repeat split; try reflexivity; lia.
    + exists (S k). rewrite (run_first_success (S m) k data Hk Hbefore Hs).
      repeat split; try reflexivity; lia.
Qed.

(** X11. Whatever the network answers, a call with [maxRetries] at least
    1 makes between 1 and [maxRetries] fetches, numbered in order, and
    one backoff sleep between two consecutive fetches and no other; with
    [maxRetries = 0] nothing is fetched and the closing error is thrown. *)
Theorem run_budget :
  forall (maxRetries : nat),
    (exists k,
        k <= maxRetries /\ (1 <= maxRetries -> 1 <= k)
        /\ trace (snd (run maxRetries)) = expectedTrace k
        /\ fetchCalls (trace (snd (run maxRetries))) = seq 0 k
        /\ delays (trace (snd (run maxRetries)))
           = (λ j, delayOf j (random j)) <$> seq 0 (k - 1)
        /\ length (delays (trace (snd (run maxRetries)))) = k - 1)
    /\ run 0 = (Throw MaximumRetriesReached, start).
Proof.
  intros maxRetries. split; [|reflexivity].
  destruct (run_shape maxRetries) as (k & Hk & Hpos & Htrace).
  destruct (expectedTrace_calls k) as [Hcalls Hdelays].
  exists k. rewrite Htrace, Hcalls, Hdelays, length_fmap, length_seq.
  repeat split; assumption.
Qed.

Lemma QofNat_add (a b : nat) : (QofNat (a + b) == QofNat a + QofNat b)%Q.
Proof. unfold QofNat. rewrite Nat2Z.inj_add, inject_Z_plus. reflexivity. Qed.

Lemma QofNat_le (a b : nat) : a <= b -> (QofNat a <= QofNat b)%Q.
Proof. intros Hab. unfold QofNat, Qle. simpl. lia. Qed.

Lemma foldr_Qplus_acc (l : list Q) (a : Q) :
  (foldr Qplus a l == foldr Qplus 0 l + a)%Q.
Proof.
  induction l as [|x l IH]; simpl.
  - ring.
  - rewrite IH. ring.
Qed.

Lemma pow2_pred_S (k : nat) : 2 ^ S k - 1 = (2 ^ k - 1) + 2 ^ k.
Proof.
  assert (1 <= 2 ^ k) by (apply Nat.neq_0_lt_0, Nat.pow_nonzero; lia).
  simpl. lia.
Qed.

(** The sum of the first [k] backoff delays. *)
Lemma delays_sum_bounds (k : nat) :
  (forall n, (0 <= random n)%Q /\ (random n < 1)%Q) ->
  let total :=
    foldr Qplus 0%Q ((λ j, delayOf j (random j)) <$> seq 0 k) in
  (QofNat (2 ^ k - 1) * 1000 <= total)%Q
  /\ (total <= QofNat (2 ^ k - 1) * 1000 + QofNat k * 1000)%Q.
Proof.
  intros Hrand. induction k as [|k [IHlo IHhi]].
  - simpl. unfold QofNat. change (inject_Z (Z.of_nat 0)) with 0%Q.
    split; lra.
  - cbv zeta. rewrite seq_S, fmap_app, foldr_app.
    change ((λ j, delayOf j (random j)) <$> [0 + k])
      with [delayOf k (random k)].
    cbn [foldr]. cbv zeta in IHlo, IHhi.
    pose proof (foldr_Qplus_acc
                  ((λ j, delayOf j (random j)) <$> seq 0 k)
                  (delayOf k (random k) + 0)%Q) as Hacc.
    pose proof (QofNat_add (2 ^ k - 1) (2 ^ k)) as Hpow.
    pose proof (QofNat_add k 1) as Hk.
    rewrite <- pow2_pred_S in Hpow.
    replace (k + 1) with (S k) in Hk by lia.
    change (QofNat 1) with 1%Q in Hk.
    destruct (Hrand k) as [H0 H1]. unfold delayOf in *.
    split; lra.
Qed.

Lemma total_delay_shape (maxRetries : nat) :
  exists k,
    k <= maxRetries
    /\ length (fetchCalls (trace (snd (run maxRetries)))) = k
    /\ totalDelay (trace (snd (run maxRetries)))
       = foldr Qplus 0%Q ((λ j, delayOf j (random j)) <$> seq 0 (k - 1)).
Proof.
  destruct (run_shape maxRetries) as (k & Hk & _ & Htrace).
  exists k. split; [exact Hk|]. rewrite Htrace. split.
  - rewrite (proj1 (expectedTrace_calls k)). apply length_seq.
  - unfold Attempt.totalDelay.
    rewrite (proj2 (expectedTrace_calls k)). reflexivity.
Qed.

(** X12. With random values in [[0, 1)], a call that made [k] fetches
    has slept, in milliseconds, at least [(2^(k-1) - 1) * 1000] and at
    most that plus [(k - 1) * 1000]; so a call with [maxRetries = 5]
    never sleeps more than 19 seconds in total. *)
Theorem total_delay_bounds :
  forall (maxRetries : nat),
    (forall n, (0 <= random n)%Q /\ (random n < 1)%Q) ->
    let t := trace (snd (run maxRetries)) in
    let k := length (fetchCalls t) in
    k <= maxRetries
    /\ (QofNat (2 ^ (k - 1) - 1) * 1000 <= totalDelay t)%Q
    /\ (totalDelay t
        <= QofNat (2 ^ (k - 1) - 1) * 1000 + QofNat (k - 1) * 1000)%Q
    /\ (maxRetries = 5 -> (totalDelay t <= 19000)%Q).
Proof.
  intros maxRetries Hrand t k. subst t k.
  destruct (total_delay_shape maxRetries) as (k & Hk & Hlen & Htotal).
  rewrite Hlen, Htotal.
  destruct (delays_sum_bounds (k - 1) Hrand) as [Hlo Hhi]. cbv zeta in Hlo, Hhi.
  split; [exact Hk|]. split; [exact Hlo|]. split; [exact Hhi|].
  intros ->.
  assert (Hpow : 2 ^ (k - 1) - 1 <= 15).
  { assert (2 ^ (k - 1) <= 2 ^ 4) by (apply Nat.pow_le_mono_r; lia).
    simpl in *. lia. }
  apply QofNat_le in Hpow.
  assert (Hk4 : (QofNat (k - 1) <= QofNat 4)%Q) by (apply QofNat_le; lia).
  change (QofNat 15) with 15%Q in Hpow. change (QofNat 4) with 4%Q in Hk4.
  lra.
Qed.

End EveryRun.

Lemma first_success_is_returned_witness :
  Attempt.successOf string (Request.badThenFine 0) = None
  /\ Attempt.successOf string (Request.badThenFine 1) = Some "answer"
  /\ fst (Request.fetchWithExponentialBackoff string Request.messageOf
            Request.badThenFine Request.halves 5) = Return "answer".
Proof.
  split; [reflexivity|]. split; [reflexivity|].
  refine (proj1 (first_success_is_returned string Request.messageOf
                   Request.badThenFine Request.halves 5 1 "answer" _ _
                   eq_refl)).
  - lia.
  - intros j Hj. assert (j = 0) as -> by lia. reflexivity.
Defined.

Lemma last_failure_is_thrown_witness :
  (forall j, j < 3 -> Attempt.successOf string (Attempt.alwaysDown j) = None)
  /\ fst (Request.fetchWithExponentialBackoff string Request.messageOf
            Attempt.alwaysDown Request.halves 3)
     = Throw (Request.FetchRejected "Failed to fetch").
Proof.
  assert (Hdown : forall j, j < 3 ->
            Attempt.successOf string (Attempt.alwaysDown j) = None)
    by (intros j Hj; reflexivity).
  split; [exact Hdown|].
  refine (proj1 (last_failure_is_thrown string Request.messageOf
                   Attempt.alwaysDown Request.halves 3 _ Hdown)).
  lia.
Defined.

Lemma run_budget_witness :
  1 <= 5
  /\ exists k,
       1 <= k <= 5
       /\ Request.fetchCalls
            (Request.trace
               (snd (Request.fetchWithExponentialBackoff string
                       Request.messageOf Attempt.alwaysDown Request.halves 5)))
          = seq 0 k.
Proof.
  assert (Hpos : 1 <= 5) by lia.
  split; [exact Hpos|].
  destruct (proj1 (run_budget string Request.messageOf Attempt.alwaysDown
                     Request.halves 5))
    as (k & Hk & Hone & _ & Hcalls & _).
  exists k. split; [split; [exact (Hone Hpos) | exact Hk] | exact Hcalls].
Defined.

Lemma total_delay_bounds_witness :
  (forall n, (0 <= Request.halves n)%Q /\ (Request.halves n < 1)%Q)
  /\ (Attempt.totalDelay
        (Request.trace
           (snd (Request.fetchWithExponentialBackoff string Request.messageOf
                   Attempt.alwaysDown Request.halves 5))) <= 19000)%Q.
Proof.
  assert (Hhalf : forall n,
            (0 <= Request.halves n)%Q /\ (Request.halves n < 1)%Q)
    by (intros n; split; [discriminate | reflexivity]).
  split; [exact Hhalf|].
  exact (proj2 (proj2 (proj2 (total_delay_bounds string Request.messageOf
                                Attempt.alwaysDown Request.halves 5 Hhalf)))
           eq_refl).
Defined.

(** ** Identity and write-back of the progress hook *)

Section HookStorage.

Import Progress Loader Persist.

Variable SyntaxError : Type.
Variable JSON_parse : string -> result SyntaxError (list ProgressEntry).
Variable JSON_stringify : list ProgressEntry -> string.

#[local] Abbreviation loadEffect := (loadEffect SyntaxError JSON_parse).
#[local] Abbreviation persistEffect := (persistEffect JSON_stringify).

(** What the effect does to the identity, and to storage. *)
Lemma loadEffect_identity (uuid : string) (st : HookState) (b : Browser) :
  exists st' b',
    loadEffect uuid st b = Return (st', b')
    /\ userId st' =
       (if truthy (localStorage b !! USER_ID_KEY)
        then default "" (localStorage b !! USER_ID_KEY) else uuid)
    /\ localStorage b' =
       (if truthy (localStorage b !! USER_ID_KEY)
        then localStorage b
        else <[USER_ID_KEY := uuid]> (localStorage b)).
Proof.
  unfold Loader.loadEffect.
  destruct (truthy (localStorage b !! USER_ID_KEY)); cbn [negb];
    cbn zeta beta iota;
    cbn [localStorage console progress loading userId];
    match goal with
    | |- context [match ?m !! PROGRESS_KEY with _ => _ end] =>
        destruct (m !! PROGRESS_KEY) as [text|]
    end;
    try (destruct (truthy (Some text));
         [destruct (JSON_parse text) as [parsed|error]|]);
    cbn; eexists; eexists; split; try reflexivity; split; reflexivity.
Qed.

Lemma loadEffect_progress (uuid text : string) (st : HookState) (b : Browser) :
  localStorage b !! PROGRESS_KEY = Some text -> text ≠ "" ->
  exists st' b',
    loadEffect uuid st b = Return (st', b')
    /\ progress st' =
       match JSON_parse text with Return parsed => parsed | Throw _ => [] end
    /\ loading st' = false.
Proof.
  intros Hstored Hne. unfold Loader.loadEffect.
  destruct (negb (truthy (localStorage b !! USER_ID_KEY)));
    cbn zeta beta iota;
    cbn [localStorage console progress loading userId];
    rewrite ?lookup_insert_ne by discriminate;
    rewrite Hstored; unfold truthy at 1;
    rewrite (bool_decide_false _ Hne); cbn [negb];
    destruct (JSON_parse text) as [parsed|error];
    cbn; eexists; eexists; split; try reflexivity; split; reflexivity.
Qed.

(** X13. The identity is created once: after the mount effect has run
    with a non-empty fresh UUID, storage holds the identity the hook
    shows; a later run of the effect, whatever UUID it is offered, shows
    the same identity and leaves storage as it is.  An identity already
    in storage is the one shown, and storage is not written. *)
Theorem identity_is_stable :
  forall (uuid uuid' : string) (st st' : HookState) (b : Browser),
    uuid ≠ "" ->
    exists st1 b1 st2 b2,
      loadEffect uuid st b = Return (st1, b1)
      /\ loadEffect uuid' st' b1 = Return (st2, b2)
      /\ localStorage b1 !! USER_ID_KEY = Some (userId st1)
      /\ userId st2 = userId st1
      /\ localStorage b2 = localStorage b1
      /\ (forall known, localStorage b !! USER_ID_KEY = Some known ->
                        known ≠ "" ->
                        userId st1 = known /\ localStorage b1 = localStorage b).
Proof.
  intros uuid uuid' st st' b Huuid.
  destruct (loadEffect_identity uuid st b) as (st1 & b1 & Hrun1 & Hid1 & Hls1).
  destruct (loadEffect_identity uuid' st' b1)
    as (st2 & b2 & Hrun2 & Hid2 & Hls2).
  exists st1, b1, st2, b2.
  assert (Hstored : localStorage b1 !! USER_ID_KEY = Some (userId st1)
                    /\ truthy (localStorage b1 !! USER_ID_KEY) = true).
  { rewrite Hid1, Hls1.
    destruct (localStorage b !! USER_ID_KEY) as [known|] eqn:Hknown; simpl.
    - destruct (bool_decide (known = "")) eqn:Hempty; simpl.
      + rewrite lookup_insert_eq. simpl.
        rewrite (bool_decide_false _ Huuid). split; reflexivity.
      + rewrite Hknown. simpl. rewrite Hempty. split; reflexivity.
    - rewrite lookup_insert_eq. simpl.
      rewrite (bool_decide_false _ Huuid). split; reflexivity. }
  destruct Hstored as [Hstored Htruthy].
  split; [exact Hrun1|]. split; [exact Hrun2|]. split; [exact Hstored|].
  rewrite Htruthy in Hid2, Hls2. rewrite Hstored in Hid2. simpl in Hid2.
  split; [exact Hid2|]. split; [exact Hls2|].
  intros known Hknown Hne. rewrite Hknown in Hid1, Hls1. simpl in Hid1, Hls1.
  rewrite (bool_decide_false _ Hne) in Hid1, Hls1. simpl in Hid1, Hls1.
  split; assumption.
Qed.

(** X14. The write-back effect writes nothing while the hook is loading.
    Once loaded it stores the serialised collection under the progress
    key and touches no other key; loading that storage again gives the
    collection back, provided the serialisation is not the empty text and
    parses to the collection. *)
Theorem persist_then_load :
  forall (uuid : string) (st : HookState) (b : Browser),
    (loading st = true -> persistEffect st b = b)
    /\ (loading st = false ->
        localStorage (persistEffect st b) !! PROGRESS_KEY
          = Some (JSON_stringify (progress st))
        /\ (forall key, key ≠ PROGRESS_KEY ->
              localStorage (persistEffect st b) !! key = localStorage b !! key)
        /\ (JSON_stringify (progress st) ≠ "" ->
            JSON_parse (JSON_stringify (progress st)) = Return (progress st) ->
            exists st' b',
              loadEffect uuid initialState (persistEffect st b)
                = Return (st', b')
              /\ progress st' = progress st)).
Proof.
  intros uuid st b. unfold Persist.persistEffect. split.
  - intros ->. reflexivity.
  - intros ->. cbn [negb localStorage]. split; [apply lookup_insert_eq|].
    split.
    + intros key Hkey. apply lookup_insert_ne. congruence.
    + intros Hne Hparse.
      destruct (loadEffect_progress uuid (JSON_stringify (progress st))
                  initialState
                  {| localStorage :=
                       <[PROGRESS_KEY := JSON_stringify (progress st)]>
                         (localStorage b);
                     console := console b |})
        as (st' & b' & Hrun & Hprog & _);
        [apply lookup_insert_eq | exact Hne |].
      exists st', b'. split; [exact Hrun|]. rewrite Hprog, Hparse.
      reflexivity.
Qed.

(** X15. A stored text that [JSON.parse] rejects is lost: the mount
    effect loads the empty collection, and the write-back that follows
    replaces the stored text by the serialisation of the empty
    collection. *)
Theorem rejected_text_is_overwritten :
  forall (uuid text : string) (error : SyntaxError) (b : Browser),
    localStorage b !! PROGRESS_KEY = Some text -> text ≠ "" ->
    JSON_parse text = Throw error ->
    exists st' b',
      loadEffect uuid initialState b = Return (st', b')
      /\ progress st' = []
      /\ localStorage (persistEffect st' b') !! PROGRESS_KEY
         = Some (JSON_stringify []).
Proof.
  intros uuid text error b Hstored Hne Hparse.
  destruct (loadEffect_progress uuid text initialState b Hstored Hne)
    as (st' & b' & Hrun & Hprog & Hloaded).
  exists st', b'. rewrite Hparse in Hprog.
  split; [exact Hrun|]. split; [exact Hprog|].
  unfold Persist.persistEffect. rewrite Hloaded, Hprog. cbn [negb localStorage].
  apply lookup_insert_eq.
Qed.

End HookStorage.

Lemma identity_is_stable_witness :
  "u-1" ≠ ""
  /\ exists st1 b1,
       Loader.loadEffect unit Loader.parseEmptyArray "u-1" Loader.initialState
         {| Loader.localStorage := ∅; Loader.console := [] |}
       = Return (st1, b1)
       /\ Loader.localStorage b1 !! Loader.USER_ID_KEY
          = Some (Loader.userId st1).
Proof.
  assert (Hne : "u-1" ≠ "") by discriminate.
  split; [exact Hne|].
  destruct (identity_is_stable unit Loader.parseEmptyArray "u-1" "u-2"
              Loader.initialState Loader.initialState
              {| Loader.localStorage := ∅; Loader.console := [] |} Hne)
    as (st1 & b1 & st2 & b2 & Hrun & _ & Hid & _).
  exists st1, b1. split; [exact Hrun | exact Hid].
Defined.

Lemma persist_then_load_witness :
  let st := {| Loader.progress := []; Loader.loading := false;
               Loader.userId := "u-1" |} in
  let b := {| Loader.localStorage := ∅; Loader.console := [] |} in
  Loader.loading st = false
  /\ Loader.localStorage (Persist.persistEffect (λ _, "[]") st b)
       !! Loader.PROGRESS_KEY = Some "[]".
Proof.
  intros st b. split; [reflexivity|].
  exact (proj1 (proj2 (persist_then_load unit Loader.parseEmptyArray
                         (λ _, "[]") "u-1" st b) eq_refl)).
Defined.

Lemma rejected_text_is_overwritten_witness :
  let b := {| Loader.localStorage := {[ Loader.PROGRESS_KEY := "{not json" ]};
              Loader.console := [] |} in
  Loader.parseEmptyArray "{not json" = Throw tt
  /\ exists st' b',
       Loader.loadEffect unit Loader.parseEmptyArray "u-1" Loader.initialState b
       = Return (st', b')
       /\ Loader.progress st' = [].
Proof.
  intros b. split; [reflexivity|].
  destruct (rejected_text_is_overwritten unit Loader.parseEmptyArray
              (λ _, "[]") "u-1" "{not json" tt b)
    as (st' & b' & Hrun & Hprog & _).
  - apply lookup_singleton_eq.
  - discriminate.
  - reflexivity.
  - exists st', b'. split; [exact Hrun | exact Hprog].
Defined.

(** ** The WAV file written by [pcmToWav] *)

Section WavFile.

Import Wav.

Lemma length_leBytes (n : nat) (value : Z) : length (leBytes n value) = n.
Proof.
  revert value. induction n as [|n IH]; intros value; [reflexivity|].
  simpl. rewrite IH. reflexivity.
Qed.

(** A write right after what has been written, into the zeros. *)
Lemma store_next (written : list Z) (k : nat) (bytes : list Z) :
  store (written ++ replicate (length bytes + k) 0%Z) (length written) bytes
  = Return ((written ++ bytes) ++ replicate k 0%Z).
Proof.
  unfold store.
  rewrite decide_True by (rewrite length_app, length_replicate; lia).
  rewrite take_app_length.
  rewrite drop_app_ge by lia.
  replace (length written + length bytes - length written)
    with (length bytes) by lia.
  rewrite replicate_add, drop_app_ge by (rewrite length_replicate; lia).
  rewrite length_replicate, Nat.sub_diag, drop_0, <- app_assoc. reflexivity.
Qed.

Lemma charCode_byte (c : Ascii.ascii) : (charCode c mod 256)%Z = charCode c.
Proof.
  unfold charCode. apply Z.mod_small.
  pose proof (Ascii.nat_ascii_bounded c). lia.
Qed.

Lemma writeChars_store (view : list Z) (offset i : nat)
    (chars : list Ascii.ascii) :
  offset + i + length chars <= length view ->
  writeChars view offset i chars
  = store view (offset + i) (charCode <$> chars).
Proof.
  revert view i. induction chars as [|c rest IH]; intros view i Hfit.
  - simpl. unfold store. simpl.
    rewrite decide_True by lia.
    rewrite Nat.add_0_r, take_drop. reflexivity.
  - simpl in Hfit. cbn [writeChars]. unfold setUint8, store at 1.
    cbn [leBytes length]. rewrite decide_True by lia. cbn [andThen].
    rewrite IH by (rewrite !length_app, length_take, length_drop;
                   simpl; lia).
    unfold store. rewrite fmap_cons. cbn [length].
    rewrite length_fmap.
    rewrite !decide_True
      by (rewrite ?length_app, ?length_take, ?length_drop, ?length_fmap;
          simpl; lia).
    f_equal. rewrite charCode_byte.
    set (o := offset + i).
    replace (offset + S i) with (S o) by lia.
    assert (Ho : o < length view) by lia.
    rewrite take_app_ge by (rewrite length_take; lia).
    rewrite length_take, Nat.min_l by lia.
    replace (S o - o) with 1 by lia.
    rewrite drop_app_ge by (rewrite length_take; lia).
    rewrite length_take, Nat.min_l by lia.
    replace (S o + length rest - o) with (S (length rest)) by lia.
    cbn [take drop app]. rewrite <- !app_assoc. cbn [app].
    rewrite drop_drop.
    replace (o + 1 + length rest) with (o + S (length rest)) by lia.
    reflexivity.
Qed.

Lemma writeString_store (view : list Z) (offset : nat) (str : string) :
  offset + String.length str <= length view ->
  writeString view offset str
  = store view offset (charCode <$> String.list_ascii_of_string str).
Proof.
  intros Hfit. unfold writeString.
  assert (Hlen : length (String.list_ascii_of_string str) = String.length str).
  { clear. induction str as [|c str IH]; [reflexivity|].
    simpl. rewrite IH. reflexivity. }
  rewrite writeChars_store by (rewrite Hlen; lia).
  rewrite Nat.add_0_r. reflexivity.
Qed.

Lemma writeSamples_next (written : list Z) (samples : list Z) (k : nat) :
  writeSamples (written ++ replicate (length samples * 2 + k) 0%Z)
    (length written) samples
  = Return ((written ++ (samples ≫= leBytes 2)) ++ replicate k 0%Z).
Proof.
  revert written. induction samples as [|sample rest IH]; intros written.
  - simpl. rewrite app_nil_r. reflexivity.
  - cbn [writeSamples]. unfold setInt16, fieldBytes.
    replace (length (sample :: rest) * 2 + k)
      with (length (leBytes 2 sample) + (length rest * 2 + k))
      by (rewrite length_leBytes; simpl; lia).
    rewrite store_next. cbn [andThen].
    replace (length written + 2) with (length (written ++ leBytes 2 sample))
      by (rewrite length_app, length_leBytes; reflexivity).
    rewrite IH, bind_cons, <- !app_assoc. reflexivity.
Qed.

(** The header is written field after field, each right after the last:
    one step for a field, one for a string. *)
Ltac next_store :=
  match goal with
  | |- context [store (?w ++ replicate ?c 0%Z) ?o ?b] =>
      let len := eval lazy in (length b) in
      replace c with (length b + (c - len))
        by (change (length b) with len; lia);
      change (store (w ++ replicate (length b + (c - len)) 0%Z) o b)
        with (store (w ++ replicate (length b + (c - len)) 0%Z) (length w) b);
      rewrite (store_next w (c - len) b); cbn [andThen]
  end.

Ltac next_string :=
  match goal with
  | |- context [writeString (?w ++ replicate ?c 0%Z) ?o ?s] =>
      let len := eval lazy in (length w) in
      rewrite (writeString_store (w ++ replicate c 0%Z) o s)
        by (rewrite length_app, length_replicate; change (length w) with len;
            cbn [String.length]; lia)
  end.

Lemma pcmToWav_bytes (pcm16 : list Z) (sampleRate : Z) :
  pcmToWav pcm16 sampleRate
  = Return (wavHeader (length pcm16) sampleRate ++ (pcm16 ≫= leBytes 2)).
Proof.
  unfold pcmToWav. cbv zeta.
  unfold setUint32, setUint16, fieldBytes.
  rewrite <- (app_nil_l (replicate _ _)).
  next_string. next_store. next_store.
  next_string. next_store.
  next_string. next_store.
  do 7 next_store.
  next_string. next_store. next_store.
  match goal with
  | |- writeSamples (?w ++ replicate ?c 0%Z) _ _ = _ =>
      replace c with (length pcm16 * 2 + 0) by lia;
      change (writeSamples (w ++ replicate (length pcm16 * 2 + 0) 0%Z) 44 pcm16)
        with (writeSamples (w ++ replicate (length pcm16 * 2 + 0) 0%Z)
                (length w) pcm16);
      rewrite (writeSamples_next w pcm16 0)
  end.
  cbn [replicate]. rewrite app_nil_r, !app_nil_l, <- !app_assoc. reflexivity.
Qed.

Lemma length_wavHeader (n : nat) (sampleRate : Z) :
  length (wavHeader n sampleRate) = 44.
Proof. reflexivity. Qed.

Lemma length_sample_bytes (pcm16 : list Z) :
  length (pcm16 ≫= leBytes 2) = length pcm16 * 2.
Proof.
  induction pcm16 as [|s rest IH]; [reflexivity|].
  rewrite bind_cons, length_app, IH. simpl. lia.
Qed.

Lemma leBytes_byte (n : nat) (value : Z) :
  Forall (λ b, (0 <= b < 256)%Z) (leBytes n value).
Proof.
  revert value. induction n as [|n IH]; intros value; [constructor|].
  simpl. constructor; [|apply IH].
  apply Z.mod_pos_bound. lia.
Qed.

Lemma leValue_leBytes (n : nat) (value : Z) :
  leValue (leBytes n value) = (value mod 256 ^ Z.of_nat n)%Z.
Proof.
  revert value. induction n as [|n IH]; intros value.
  - simpl. rewrite Z.mod_1_r. reflexivity.
  - cbn [leBytes leValue]. rewrite IH.
    rewrite Nat2Z.inj_succ, Z.pow_succ_r by lia.
    rewrite Z.rem_mul_r by lia. reflexivity.
Qed.

Lemma readLE_at (pre field post : list Z) :
  readLE (pre ++ field ++ post) (length pre) (length field) = leValue field.
Proof.
  unfold readLE. rewrite drop_app_length, take_app_length. reflexivity.
Qed.

(** X16. [pcmToWav] never throws: every write fits the buffer it
    allocates.  The file is the 44-byte header followed by the two
    little-endian bytes of each sample, in order, so it has
    [44 + 2 * pcm16.length] bytes, each from 0 to 255; it starts with
    [RIFF], and [WAVEfmt ] and [data] are at offsets 8 and 36. *)
Theorem pcmToWav_layout :
  forall (pcm16 : list Z) (sampleRate : Z),
    exists file,
      pcmToWav pcm16 sampleRate = Return file
      /\ file = wavHeader (length pcm16) sampleRate ++ (pcm16 ≫= leBytes 2)
      /\ length file = 44 + 2 * length pcm16
      /\ take 4 file = [82; 73; 70; 70]%Z
      /\ take 8 (drop 8 file) = [87; 65; 86; 69; 102; 109; 116; 32]%Z
      /\ take 4 (drop 36 file) = [100; 97; 116; 97]%Z
      /\ Forall (λ b, (0 <= b < 256)%Z) file.
Proof.
  intros pcm16 sampleRate. eexists. split; [apply pcmToWav_bytes|].
  split; [reflexivity|]. split.
  - rewrite length_app, length_wavHeader, length_sample_bytes. lia.
  - split; [reflexivity|]. split; [reflexivity|]. split; [reflexivity|].
    apply Forall_app. split.
    + unfold wavHeader.
      repeat (apply Forall_app; split);
        first [ apply leBytes_byte
              | apply Forall_forall; intros b Hb;
                apply list_elem_of_fmap in Hb as (c & -> & _);
                unfold charCode; pose proof (Ascii.nat_ascii_bounded c); lia ].
    + apply Forall_forall. intros b Hb.
      apply list_elem_of_bind in Hb as (s & Hb & _).
      pose proof (leBytes_byte 2 s) as Hall. rewrite Forall_forall in Hall.
      apply Hall, Hb.
Qed.

(** Reading the field of [n] bytes at [offset] of a file whose bytes
    before the field are [pre]. *)
Ltac read_field pre field post :=
  match goal with
  | |- readLE ?file ?offset ?n = _ =>
      change (readLE file offset n)
        with (readLE (pre ++ field ++ post) (length pre) (length field));
      rewrite readLE_at; unfold field; rewrite leValue_leBytes
  end.

(** X17. The header fields of the file read back as the WAV format
    wants them: the RIFF size is the file length less 8 and the data size
    is twice the number of samples (both modulo 2^32), the format is PCM
    (1), one channel, 16 bits per sample, block align 2; the sample rate
    and the byte rate are [sampleRate] and [2 * sampleRate] modulo 2^32,
    so a rate outside [0, 2^32) is stored wrapped. *)
Theorem pcmToWav_header_fields :
  forall (pcm16 : list Z) (sampleRate : Z),
    exists file,
      pcmToWav pcm16 sampleRate = Return file
      /\ readLE file 4 4 = ((Z.of_nat (length file) - 8) mod 2 ^ 32)%Z
      /\ readLE file 16 4 = 16%Z
      /\ readLE file 20 2 = 1%Z
      /\ readLE file 22 2 = 1%Z
      /\ readLE file 24 4 = (sampleRate mod 2 ^ 32)%Z
      /\ readLE file 28 4 = ((2 * sampleRate) mod 2 ^ 32)%Z
      /\ readLE file 32 2 = 2%Z
      /\ readLE file 34 2 = 16%Z
      /\ readLE file 40 4 = ((2 * Z.of_nat (length pcm16)) mod 2 ^ 32)%Z
      /\ ((0 <= sampleRate < 2 ^ 31)%Z ->
          readLE file 24 4 = sampleRate
          /\ readLE file 28 4 = (2 * sampleRate)%Z).
Proof.
  intros pcm16 sampleRate.
  set (n := length pcm16). set (data := pcm16 ≫= leBytes 2).
  set (riff := charCode <$> String.list_ascii_of_string "RIFF").
  set (wave := charCode <$> String.list_ascii_of_string "WAVE").
  set (fmt := charCode <$> String.list_ascii_of_string "fmt ").
  set (dat := charCode <$> String.list_ascii_of_string "data").
  set (f1 := leBytes 4 (Z.of_nat (36 + n * 2))).
  set (f2 := leBytes 4 16). set (f3 := leBytes 2 1). set (f4 := leBytes 2 1).
  set (f5 := leBytes 4 sampleRate). set (f6 := leBytes 4 (sampleRate * 1 * 2)).
  set (f7 := leBytes 2 2). set (f8 := leBytes 2 16).
  set (f9 := leBytes 4 (Z.of_nat (n * 2))).
  assert (Hrate : readLE (wavHeader n sampleRate ++ data) 24 4
                  = (sampleRate mod 2 ^ 32)%Z).
  { read_field (riff ++ f1 ++ wave ++ fmt ++ f2 ++ f3 ++ f4) f5
               (f6 ++ f7 ++ f8 ++ dat ++ f9 ++ data).
    reflexivity. }
  assert (Hbyte : readLE (wavHeader n sampleRate ++ data) 28 4
                  = ((2 * sampleRate) mod 2 ^ 32)%Z).
  { read_field (riff ++ f1 ++ wave ++ fmt ++ f2 ++ f3 ++ f4 ++ f5) f6
               (f7 ++ f8 ++ dat ++ f9 ++ data).
    f_equal. lia. }
  exists (wavHeader n sampleRate ++ data).
  split; [apply pcmToWav_bytes|]. split.
  { read_field riff f1
               (wave ++ fmt ++ f2 ++ f3 ++ f4 ++ f5 ++ f6 ++ f7 ++ f8
                ++ dat ++ f9 ++ data).
    f_equal. rewrite length_app, length_wavHeader.
    unfold data. rewrite length_sample_bytes. fold n. lia. }
  split; [reflexivity|]. split; [reflexivity|]. split; [reflexivity|].
  split; [exact Hrate|]. split; [exact Hbyte|].
  split; [reflexivity|]. split; [reflexivity|]. split.
  { read_field (riff ++ f1 ++ wave ++ fmt ++ f2 ++ f3 ++ f4 ++ f5 ++ f6
                ++ f7 ++ f8 ++ dat) f9 data.
    f_equal. lia. }
  intros Hrange. rewrite Hrate, Hbyte.
  split; apply Z.mod_small; lia.
Qed.

Lemma pcmToWav_header_fields_witness :
  (0 <= 24000 < 2 ^ 31)%Z
  /\ exists file,
       pcmToWav [0; -1; 32767]%Z 24000 = Return file
       /\ readLE file 24 4 = 24000%Z.
Proof.
  assert (Hrange : (0 <= 24000 < 2 ^ 31)%Z) by (split; [discriminate | reflexivity]).
  split; [exact Hrange|].
  destruct (pcmToWav_header_fields [0; -1; 32767]%Z 24000)
    as (file & Hfile & _ & _ & _ & _ & _ & _ & _ & _ & _ & Hsmall).
  exists file. split; [exact Hfile | exact (proj1 (Hsmall Hrange))].
Defined.

Lemma sample_bytes_back (lo hi : Z) :
  (0 <= lo < 256)%Z -> (0 <= hi < 256)%Z ->
  leBytes 2 (toInt16 lo hi) = [lo; hi].
Proof.
  intros Hlo Hhi. unfold toInt16. cbn [leBytes].
  destruct (lo + 256 * hi <? 32768)%Z;
    f_equal; [| f_equal | | f_equal];
    Z.div_mod_to_equations; lia.
Qed.

Lemma int16Elements_back (n : nat) (bytes : list Z) :
  length bytes = 2 * n ->
  Forall (λ b, (0 <= b < 256)%Z) bytes ->
  int16Elements bytes ≫= leBytes 2 = bytes
  /\ length (int16Elements bytes) = n.
Proof.
  revert bytes. induction n as [|n IH]; intros bytes Hlen Hall.
  - destruct bytes; [split; reflexivity | discriminate].
  - destruct bytes as [|lo [|hi rest]]; [discriminate | simpl in Hlen; lia |].
    apply Forall_cons in Hall as [Hlo Hall].
    apply Forall_cons in Hall as [Hhi Hall].
    destruct (IH rest) as [Hback Hcount]; [simpl in Hlen; lia | exact Hall |].
    cbn [int16Elements]. rewrite bind_cons, Hback.
    rewrite (sample_bytes_back lo hi Hlo Hhi). cbn [length].
    rewrite Hcount. split; reflexivity.
Qed.

(** X18. The audio bytes pass through unchanged: for PCM data of [2n]
    bytes, viewing them as [Int16Array] and writing the WAV file gives the
    header for [n] samples followed by exactly those bytes.  PCM data of
    odd length never reaches [pcmToWav]: the [Int16Array] constructor
    throws. *)
Theorem pcm_bytes_pass_through :
  forall (pcmData : list Z) (sampleRate : Z),
    (forall n, length pcmData = 2 * n ->
               Forall (λ b, (0 <= b < 256)%Z) pcmData ->
               wavOfPcmBytes pcmData sampleRate
               = Return (wavHeader n sampleRate ++ pcmData))
    /\ (Nat.odd (length pcmData) = true ->
        wavOfPcmBytes pcmData sampleRate = Throw OutOfBounds).
Proof.
  intros pcmData sampleRate. unfold wavOfPcmBytes, Int16Array. split.
  - intros n Hlen Hall.
    assert (Heven : Nat.even (length pcmData) = true)
      by (rewrite Hlen; apply Nat.even_spec; exists n; reflexivity).
    rewrite Heven. cbn [andThen]. rewrite pcmToWav_bytes.
    destruct (int16Elements_back n pcmData Hlen Hall) as [Hback Hcount].
    rewrite Hback, Hcount. reflexivity.
  - intros Hodd. rewrite <- Nat.negb_odd, Hodd. reflexivity.
Qed.

Lemma pcm_bytes_pass_through_witness :
  length [1; 2; 255; 127]%Z = 2 * 2
  /\ wavOfPcmBytes [1; 2; 255; 127]%Z 16000
     = Return (wavHeader 2 16000 ++ [1; 2; 255; 127]%Z).
Proof.
  split; [reflexivity|].
  apply (proj1 (pcm_bytes_pass_through [1; 2; 255; 127]%Z 16000) 2 eq_refl).
  repeat constructor; discriminate.
Defined.

End WavFile.

(** ** The server route *)

Section ServerRoute.

Import Route.

Variable Json : Type.
Variable errorMessage : Json -> result Request.Exn string.
Variable API_KEY : option string.
Variable fetch : string -> Payload -> Request.FetchResult Json.

#[local] Abbreviation POST := (POST Json errorMessage API_KEY fetch).

Lemma calls_when_valid (body : RequestBody) :
  calls Json
    (match fetch (apiUrl (if isTTS body then MODEL_TTS else MODEL_TEXT)
                    (default "" API_KEY)) (buildPayload body) with
     | Request.Rejected _ _ =>
         internalError Json
           [(apiUrl (if isTTS body then MODEL_TTS else MODEL_TEXT)
               (default "" API_KEY), buildPayload body)] []
     | Request.Resolved _ geminiResponse =>
         if negb (Request.ok Json geminiResponse)
         then
           match Request.json Json geminiResponse with
           | None =>
               internalError Json
                 [(apiUrl (if isTTS body then MODEL_TTS else MODEL_TEXT)
                     (default "" API_KEY), buildPayload body)] []
           | Some errorData =>
               match errorMessage errorData with
               | Throw _ =>
                   internalError Json
                     [(apiUrl (if isTTS body then MODEL_TTS else MODEL_TEXT)
                         (default "" API_KEY), buildPayload body)]
                     ["Gemini API Error:"]
               | Return message =>
                   {| response :=
                        {| status := Request.status Json geminiResponse;
                           reply :=
                             ErrorReply Json ("Gemini API failed: " +:+ message)
                               (Some (Request.status Json geminiResponse)) |};
                      calls :=
                        [(apiUrl (if isTTS body then MODEL_TTS else MODEL_TEXT)
                            (default "" API_KEY), buildPayload body)];
                      console := ["Gemini API Error:"] |}
               end
           end
         else
           match Request.json Json geminiResponse with
           | None =>
               internalError Json
                 [(apiUrl (if isTTS body then MODEL_TTS else MODEL_TEXT)
                     (default "" API_KEY), buildPayload body)] []
           | Some data =>
               {| response := {| status := 200; reply := DataReply Json data |};
                  calls :=
                    [(apiUrl (if isTTS body then MODEL_TTS else MODEL_TEXT)
                        (default "" API_KEY), buildPayload body)];
                  console := [] |}
           end
     end)
  = [(apiUrl (if isTTS body then MODEL_TTS else MODEL_TEXT)
        (default "" API_KEY), buildPayload body)].
Proof.
  destruct (fetch _ _) as [err|r]; [reflexivity|].
  destruct (negb (Request.ok Json r)), (Request.json Json r) as [j|];
    try reflexivity.
  destruct (errorMessage j); reflexivity.
Qed.

(** X19. The route validates before it calls upstream: without a
    configured key it answers 500, with a body that is not JSON 400, and
    with an empty query 400, each time without any upstream call.  In
    every case it makes at most one upstream call (it never retries), and
    a call it makes goes to the model named in the payload, the speech
    model exactly for a speech request, with the configured key. *)
Theorem route_validates_first :
  forall (reqJson : result unit RequestBody),
    (Loader.truthy API_KEY = false ->
     status Json (response Json (POST reqJson)) = 500
     /\ calls Json (POST reqJson) = [])
    /\ (forall e, Loader.truthy API_KEY = true -> reqJson = Throw e ->
          status Json (response Json (POST reqJson)) = 400
          /\ calls Json (POST reqJson) = [])
    /\ (forall body, Loader.truthy API_KEY = true -> reqJson = Return body ->
          query body = "" ->
          status Json (response Json (POST reqJson)) = 400
          /\ calls Json (POST reqJson) = [])
    /\ length (calls Json (POST reqJson)) <= 1
    /\ (forall url payload, (url, payload) ∈ calls Json (POST reqJson) ->
          exists body key,
            reqJson = Return body /\ API_KEY = Some key /\ key ≠ ""
            /\ query body ≠ ""
            /\ payload = buildPayload body
            /\ url = apiUrl (model payload) key
            /\ (model payload = MODEL_TTS <-> isTTS body = true)).
Proof.
  intros reqJson. unfold Route.POST.
  destruct (Loader.truthy API_KEY) eqn:Hkey; cbn [negb].
  2:{ cbn. repeat split; try discriminate; try lia.
      intros url payload Hin. inversion Hin. }
  split; [discriminate|].
  destruct reqJson as [body|e].
  2:{ cbn. repeat split; try discriminate; try lia.
      intros url payload Hin. inversion Hin. }
  destruct (bool_decide (query body = "")) eqn:Hq.
  { cbn. repeat split; try discriminate; try lia.
    intros url payload Hin. inversion Hin. }
  apply bool_decide_eq_false in Hq.
  split; [discriminate|]. split; [intros b _ [= <-] Hempty; contradiction|].
  cbv zeta. rewrite calls_when_valid. split; [simpl; lia|].
  intros url payload Hin. apply list_elem_of_singleton in Hin.
  injection Hin as -> ->.
  destruct API_KEY as [key|]; [|discriminate].
  exists body, key. simpl in Hkey.
  apply negb_true_iff, bool_decide_eq_false in Hkey.
  repeat split; try assumption; try reflexivity;
    unfold buildPayload; destruct (isTTS body); simpl;
    try reflexivity; try discriminate.
Qed.

(** X20. The route answers 200 exactly when it called upstream and the
    answer was a success with a JSON body, which it passes on as it is.
    A failure answer of upstream with a JSON body keeps its status and is
    written to the console; an upstream call that rejects, or whose body
    is not JSON, gives 500. *)
Theorem route_status :
  forall (reqJson : result unit RequestBody),
    (status Json (response Json (POST reqJson)) = 200 <->
     exists url payload upstream data,
       calls Json (POST reqJson) = [(url, payload)]
       /\ fetch url payload = Request.Resolved Json upstream
       /\ Request.ok Json upstream = true
       /\ Request.json Json upstream = Some data
       /\ reply Json (response Json (POST reqJson)) = DataReply Json data)
    /\ (forall url payload upstream errorData message,
          calls Json (POST reqJson) = [(url, payload)] ->
          fetch url payload = Request.Resolved Json upstream ->
          Request.ok Json upstream = false ->
          Request.json Json upstream = Some errorData ->
          errorMessage errorData = Return message ->
          response Json (POST reqJson)
          = {| status := Request.status Json upstream;
               reply := ErrorReply Json ("Gemini API failed: " +:+ message)
                          (Some (Request.status Json upstream)) |}
          /\ console Json (POST reqJson) = ["Gemini API Error:"])
    /\ (forall url payload,
          calls Json (POST reqJson) = [(url, payload)] ->
          (forall upstream, fetch url payload = Request.Resolved Json upstream ->
                            Request.json Json upstream = None) ->
          status Json (response Json (POST reqJson)) = 500).
Proof.
  intros reqJson. unfold Route.POST.
  destruct (Loader.truthy API_KEY); cbn [negb].
  2:{ cbn. split; [|split]; try discriminate.
      split; [discriminate|]. intros (?&?&?&?&?&_). discriminate. }
  destruct reqJson as [body|e].
  2:{ cbn. split; [|split]; try discriminate.
      split; [discriminate|]. intros (?&?&?&?&?&_). discriminate. }
  destruct (bool_decide (query body = "")).
  { cbn. split; [|split]; try discriminate.
    split; [discriminate|]. intros (?&?&?&?&?&_). discriminate. }
  cbv zeta.
  set (url := apiUrl _ _). set (payload := buildPayload body).
  destruct (fetch url payload) as [err|r] eqn:Hfetch.
  { cbn. split; [|split].
    - split; [discriminate|].
      intros (u & p & up & d & [= <- <-] & Hf & _). congruence.
    - intros u p up ed msg [= <- <-] Hf. congruence.
    - reflexivity. }
  destruct (Request.ok Json r) eqn:Hok; cbn [negb].
  - destruct (Request.json Json r) as [data|] eqn:Hjson; cbn.
    + split; [|split].
      * split; [|reflexivity]. intros _. exists url, payload, r, data.
        repeat split; assumption.
      * intros u p up ed msg [= <- <-] Hf Hnok. congruence.
      * intros u p [= <- <-] Hnone. specialize (Hnone r Hfetch). congruence.
    + split; [|split].
      * split; [discriminate|].
        intros (u & p & up & d & [= <- <-] & Hf & _ & Hj & _). congruence.
      * intros u p up ed msg [= <- <-] Hf _ Hj. congruence.
      * reflexivity.
  - pose proof Hok as Hstatus. unfold Request.ok in Hstatus.
    destruct (Request.json Json r) as [errorData|] eqn:Hjson.
    + destruct (errorMessage errorData) as [message|err] eqn:Hmsg; cbn.
      * split; [|split].
        -- split.
           ++ intros H200. rewrite H200 in Hstatus. discriminate.
           ++ intros (u & p & up & d & [= <- <-] & Hf & Hok' & _). congruence.
        -- intros u p up ed msg [= <- <-] Hf _ Hj Hm.
           assert (up = r) as -> by congruence.
           assert (ed = errorData) as -> by congruence.
           assert (msg = message) as -> by congruence.
           split; reflexivity.
        -- intros u p [= <- <-] Hnone. specialize (Hnone r Hfetch). congruence.
      * split; [|split].
        -- split; [discriminate|].
           intros (u & p & up & d & [= <- <-] & Hf & Hok' & _). congruence.
        -- intros u p up ed msg [= <- <-] Hf _ Hj Hm. congruence.
        -- reflexivity.
    + cbn. split; [|split].
      * split; [discriminate|].
        intros (u & p & up & d & [= <- <-] & Hf & Hok' & _). congruence.
      * intros u p up ed msg [= <- <-] Hf _ Hj. congruence.
      * reflexivity.
Qed.

End ServerRoute.

Lemma route_validates_first_witness :
  Route.status string
    (Route.response string
       (Route.POST string Request.messageOf None
          (λ _ _, Request.busyThenFine 0)
          (Return {| Route.query := "What is SAP?"; Route.systemPrompt := "";
                     Route.isTTS := false |}))) = 500.
Proof.
  exact (proj1 (proj1 (route_validates_first string Request.messageOf None
                         (λ _ _, Request.busyThenFine 0)
                         (Return {| Route.query := "What is SAP?"; Route.systemPrompt := "";
                                    Route.isTTS := false |})) eq_refl)).
Defined.

Lemma route_status_witness :
  let run :=
    Route.POST string Request.messageOf (Some "key")
      (λ _ _, Request.busyThenFine 0)
      (Return {| Route.query := "What is SAP?"; Route.systemPrompt := "";
                 Route.isTTS := false |}) in
  Route.status string (Route.response string run) = 429
  /\ Route.console string run = ["Gemini API Error:"].
Proof.
  intros run.
  destruct (proj1 (proj2 (route_status string Request.messageOf (Some "key")
                            (λ _ _, Request.busyThenFine 0)
                            (Return {| Route.query := "What is SAP?";
                                       Route.systemPrompt := ""; Route.isTTS := false |})))
              _ _ _ "slow down" "slow down"
              eq_refl eq_refl eq_refl eq_refl eq_refl) as [Hresp Hcons].
  split; [|exact Hcons]. unfold run. rewrite Hresp. reflexivity.
Defined.

(** ** Navigation of the e-book application *)

Section Navigation.

Import Views.

Lemma find_some_key {A} (key : A -> string) (l : list A) (x : A) :
  x ∈ l ->
  exists y, snd <$> list_find (λ z, key z = key x) l = Some y
            /\ y ∈ l /\ key y = key x.
Proof.
  intros Hin.
  destruct (list_find_elem_of (λ z, key z = key x) l x Hin eq_refl)
    as [[i y] Hfind].
  exists y. rewrite Hfind. split; [reflexivity|].
  apply (list_find_key_inv key l (key x) y). rewrite Hfind. reflexivity.
Qed.

(** X21. Going back: from an e-book the back button leads to the detail
    view of the same course, from anywhere else to the dashboard, so two
    steps back always end on the dashboard; and when the e-book screen of
    a course was shown, the screen after one step back is the detail
    screen of that course. *)
Theorem back_navigation :
  forall (catalog : list ModuleVariant.SAPCourse) (view : ViewState),
    handleBack (handleBack view) = DASHBOARD
    /\ (forall courseId moduleId,
          handleBack (handleViewModule courseId moduleId)
          = handleViewCourse courseId)
    /\ (forall courseId, handleBack (handleViewCourse courseId) = DASHBOARD)
    /\ (forall course module,
          appBody catalog view = EbookScreen course module ->
          appBody catalog (handleBack view) = CourseDetailScreen course).
Proof.
  intros catalog view. split; [destruct view; reflexivity|].
  split; [reflexivity|]. split; [reflexivity|].
  intros course module Hshown. destruct view as [|c|c m]; try discriminate.
  - simpl in Hshown.
    destruct (list_find _ catalog) as [[i x]|]; discriminate.
  - simpl in *.
    destruct (list_find (λ c0, ModuleVariant.id c0 = c) catalog)
      as [[i x]|]; [|discriminate].
    simpl in *.
    destruct (list_find _ (ModuleVariant.modules x)) as [[j y]|];
      [|discriminate].
    simpl in Hshown. injection Hshown as -> _. reflexivity.
Qed.

Lemma back_navigation_witness :
  let view := handleViewModule "mm" "mm-2" in
  appBody ModuleVariant.SAP_COURSES view
  = EbookScreen ModuleVariant.SAP_MM
      (ModuleVariant.mkModule "mm-2" "Purchase Requisition & Order Processing")
  /\ appBody ModuleVariant.SAP_COURSES (handleBack view)
     = CourseDetailScreen ModuleVariant.SAP_MM.
Proof.
  intros view. split; [reflexivity|].
  exact (proj2 (proj2 (proj2 (back_navigation ModuleVariant.SAP_COURSES view)))
           _ _ eq_refl).
Defined.

(** X22. Following the links of the catalog never leads to a not-found
    screen: for a course of the catalog the detail screen of a course
    with that ID is shown (of that very course when the IDs of the
    catalog are distinct), and for each module listed on that screen the
    e-book screen of a module with that ID of the same course. *)
Theorem catalog_links_are_found :
  forall (catalog : list ModuleVariant.SAPCourse)
         (course : ModuleVariant.SAPCourse),
    course ∈ catalog ->
    exists shown,
      appBody catalog (handleViewCourse (ModuleVariant.id course))
      = CourseDetailScreen shown
      /\ ModuleVariant.id shown = ModuleVariant.id course
      /\ (NoDup (ModuleVariant.id <$> catalog) -> shown = course)
      /\ (forall module, module ∈ ModuleVariant.modules shown ->
            exists opened,
              appBody catalog
                (handleViewModule (ModuleVariant.id shown)
                   (ModuleVariant.module_id module))
              = EbookScreen shown opened
              /\ ModuleVariant.module_id opened
                 = ModuleVariant.module_id module).
Proof.
  intros catalog course Hin.
  destruct (find_some_key ModuleVariant.id catalog course Hin)
    as (shown & Hfind & Hshown & Hid).
  exists shown. unfold handleViewCourse, handleViewModule. simpl.
  rewrite Hfind. split; [reflexivity|]. split; [exact Hid|]. split.
  - intros Hnd.
    pose proof (list_find_key ModuleVariant.id catalog _ course Hnd Hin
                  eq_refl) as Hcourse.
    congruence.
  - intros module Hm. rewrite Hid, Hfind.
    destruct (find_some_key ModuleVariant.module_id
                (ModuleVariant.modules shown) module Hm)
      as (opened & Hopen & _ & Hmid).
    exists opened. rewrite Hopen. split; [reflexivity | exact Hmid].
Qed.

Lemma catalog_links_are_found_witness :
  ModuleVariant.SAP_SD ∈ ModuleVariant.SAP_COURSES
  /\ exists shown,
       appBody ModuleVariant.SAP_COURSES
         (handleViewCourse (ModuleVariant.id ModuleVariant.SAP_SD))
       = CourseDetailScreen shown
       /\ ModuleVariant.id shown = "sd".
Proof.
  assert (Hin : ModuleVariant.SAP_SD ∈ ModuleVariant.SAP_COURSES)
    by (apply list_elem_of_In; simpl; auto).
  split; [exact Hin|].
  destruct (catalog_links_are_found ModuleVariant.SAP_COURSES
              ModuleVariant.SAP_SD Hin) as (shown & Hscreen & Hid & _).
  exists shown. split; [exact Hscreen | exact Hid].
Defined.

End Navigation.

(** ** The text handed to the voice service *)

Section SpokenText.

Import Speech.

Lemma length_append (s1 s2 : string) :
  String.length (s1 +:+ s2) = String.length s1 + String.length s2.
Proof.
  induction s1 as [|c s1 IH]; [reflexivity|]. simpl. rewrite IH. reflexivity.
Qed.

Lemma length_substring_0 (m : nat) (s : string) :
  String.length (String.substring 0 m s) = Nat.min m (String.length s).
Proof.
  revert m. induction s as [|c s IH]; intros [|m]; try reflexivity.
  simpl. rewrite IH. reflexivity.
Qed.

Lemma substring_0_prefix (m : nat) (s : string) :
  exists rest, s = String.substring 0 m s +:+ rest.
Proof.
  revert m. induction s as [|c s IH]; intros [|m].
  - exists "". reflexivity.
  - exists "". reflexivity.
  - exists (String c s). reflexivity.
  - destruct (IH m) as [rest Hrest]. exists rest.
    change (String c s = String c (String.substring 0 m s +:+ rest)).
    f_equal. exact Hrest.
Qed.

(** X23. The text sent to the voice service has at most 532 characters.
    A text of at most 500 characters is sent as it is; a longer one is cut
    to its first 500 characters, followed by the truncation note, and has
    exactly 532 characters. *)
Theorem spokenText_bounds :
  forall (text : string),
    String.length (spokenText text) <= 532
    /\ (String.length text <= 500 -> spokenText text = text)
    /\ (500 < String.length text ->
        String.length (spokenText text) = 532
        /\ exists first rest,
             String.length first = 500
             /\ text = first +:+ rest
             /\ spokenText text = first +:+ truncationNote).
Proof.
  intros text. unfold spokenText.
  destruct (500 <? String.length text) eqn:Hlong.
  - apply Nat.ltb_lt in Hlong.
    assert (Hlen : String.length
                     (String.substring 0 500 text +:+ truncationNote) = 532).
    { rewrite length_append, length_substring_0, Nat.min_l by lia.
      reflexivity. }
    split; [lia|]. split; [lia|]. intros _. split; [exact Hlen|].
    destruct (substring_0_prefix 500 text) as [rest Hrest].
    exists (String.substring 0 500 text), rest.
    split; [rewrite length_substring_0; lia|]. split; [exact Hrest|].
    reflexivity.
  - apply Nat.ltb_ge in Hlong. split; [lia|]. split; [reflexivity|]. lia.
Qed.

Lemma spokenText_bounds_witness :
  String.length "What is SAP?" <= 500
  /\ spokenText "What is SAP?" = "What is SAP?".
Proof.
  split; [apply (bool_decide_unpack _); reflexivity|].
  apply (proj1 (proj2 (spokenText_bounds "What is SAP?"))).
  apply (bool_decide_unpack _). reflexivity.
Defined.

End SpokenText.

(** ** Asking the tutor *)

Section AskingTheTutor.

Import Tutor.

Variable errorMessage : GeminiResult -> result Request.Exn string.
Variable fetch : nat -> Request.FetchResult GeminiResult.
Variable random : nat -> Q.

#[local] Abbreviation generateContent :=
  (generateContent errorMessage fetch random).

Lemma orElse_nonempty (value : option string) (fallback : string) :
  fallback ≠ "" -> orElse value fallback ≠ "".
Proof.
  intros Hf. unfold orElse. destruct value as [s|]; [|exact Hf].
  destruct (bool_decide (s = "")) eqn:Hs; [exact Hf|].
  apply bool_decide_eq_false in Hs. exact Hs.
Qed.

Lemma answerOf_nonempty (result : GeminiResult) : answerOf result ≠ "".
Proof. apply orElse_nonempty. discriminate. Qed.

(** X24. Without a key [generateContent] throws the key error and
    fetches nothing.  With a key it either returns a non-empty text, the
    answer read from the first success within five attempts, or throws
    the one "trouble connecting" error, whatever the wrapper failed with;
    it never fetches more than five times. *)
Theorem generateContent_outcomes :
  forall (apiKey : string),
    (apiKey = "" ->
     generateContent apiKey = (Throw ApiKeyMissing, Request.start, []))
    /\ (apiKey ≠ "" ->
        let '(outcome, w, console) := generateContent apiKey in
        length (Request.fetchCalls (Request.trace w)) <= 5
        /\ ((exists answer, outcome = Return answer /\ answer ≠ ""
                            /\ console = [])
            \/ (outcome = Throw KnowledgeBaseTrouble
                /\ console = ["Text API call failed:"]))
        /\ (forall k data,
              k < 5 ->
              (forall j, j < k ->
                 Attempt.successOf GeminiResult (fetch j) = None) ->
              Attempt.successOf GeminiResult (fetch k) = Some data ->
              outcome = Return (answerOf data))).
Proof.
  intros apiKey. unfold Tutor.generateContent. split.
  - intros ->. reflexivity.
  - intros Hkey. rewrite (bool_decide_false _ Hkey).
    destruct (run_shape GeminiResult errorMessage fetch random 5)
      as (n & Hn & _ & Htrace).
    pose proof (proj1 (expectedTrace_calls random n)) as Hcalls.
    rewrite <- Htrace in Hcalls.
    destruct (Request.fetchWithExponentialBackoff GeminiResult errorMessage
                fetch random 5) as [[result|error] w] eqn:Hrun;
      cbn [snd] in Hcalls; rewrite Hcalls, length_seq;
      (split; [exact Hn|]).
    + split.
      * left. exists (answerOf result).
        split; [reflexivity|]. split; [apply answerOf_nonempty | reflexivity].
      * intros k data Hk Hfail Hsucc.
        pose proof (run_first_success GeminiResult errorMessage fetch random
                      5 k data Hk Hfail Hsucc) as Hfirst.
        rewrite Hrun in Hfirst. congruence.
    + split.
      * right. split; reflexivity.
      * intros k data Hk Hfail Hsucc.
        pose proof (run_first_success GeminiResult errorMessage fetch random
                      5 k data Hk Hfail Hsucc) as Hfirst.
        rewrite Hrun in Hfirst. discriminate.
Qed.

(** X25. The two readers of an answer agree when the first part of the
    first candidate has a text: both give that text.  When it has none,
    [handleSubmit] gives its fallback sentence, while [generateContent]
    gives the text of the first later part that has one.  Neither ever
    gives the empty text. *)
Theorem answer_readers :
  forall (result : GeminiResult),
    answerOf result ≠ "" /\ aiText result ≠ ""
    /\ (forall first rest,
          firstParts result = Some (first :: rest) ->
          (text first ≠ "" ->
           answerOf result = text first /\ aiText result = text first)
          /\ (text first = "" ->
              aiText result = "I was unable to retrieve a response."
              /\ forall later others,
                   rest = later :: others -> text later ≠ "" ->
                   answerOf result = text later)).
Proof.
  intros result. split; [apply answerOf_nonempty|].
  split; [apply orElse_nonempty; discriminate|].
  intros first rest Hparts. unfold answerOf, aiText, textPart.
  rewrite Hparts. split.
  - intros Hne. simpl. rewrite !(bool_decide_false _ Hne). simpl.
    rewrite ?(bool_decide_false _ Hne). split; reflexivity.
  - intros Hempty. simpl. rewrite !(bool_decide_true _ Hempty). simpl.
    rewrite ?(bool_decide_true _ Hempty).
    split; [reflexivity|].
    intros later others -> Hlater. simpl.
    rewrite !(bool_decide_false _ Hlater). simpl.
    rewrite ?(bool_decide_false _ Hlater). reflexivity.
Qed.

End AskingTheTutor.

Lemma generateContent_outcomes_witness :
  "key" ≠ ""
  /\ fst (fst (Tutor.generateContent Tutor.noMessage Tutor.answering
                 Request.halves "key"))
     = Return "SAP is an ERP suite.".
Proof.
  assert (Hkey : "key" ≠ "") by discriminate.
  split; [exact Hkey|].
  pose proof (proj2 (generateContent_outcomes Tutor.noMessage Tutor.answering
                       Request.halves "key") Hkey) as Hout.
  destruct (Tutor.generateContent Tutor.noMessage Tutor.answering
              Request.halves "key") as [[outcome w] console].
  destruct Hout as (_ & _ & Hfirst). cbn [fst].
  rewrite (Hfirst 0 Tutor.plainAnswer); [reflexivity | lia | | reflexivity].
  intros j Hj. lia.
Defined.

Lemma answer_readers_witness :
  Tutor.firstParts Tutor.laterTextAnswer
  = Some [ {| Tutor.text := "" |}; {| Tutor.text := "SAP is an ERP suite." |} ]
  /\ Tutor.aiText Tutor.laterTextAnswer = "I was unable to retrieve a response."
  /\ Tutor.answerOf Tutor.laterTextAnswer = "SAP is an ERP suite.".
Proof.
  split; [reflexivity|].
  destruct (proj2 (proj2 (proj2 (answer_readers Tutor.laterTextAnswer))
                     _ _ eq_refl) eq_refl) as [Hsubmit Hgenerate].
  split; [exact Hsubmit|].
  apply (Hgenerate _ [] eq_refl). discriminate.
Defined.

(** ** The sample rate named by a MIME type *)

Section SampleRate.

Import Mime.








End SampleRate.
